(** * Hellanzb.Logging: the scroll interruption machinery

    A shallow embedding of [Hellanzb/Logging.py]: the class attributes of
    [ScrollableHandler] and [ScrollInterrupter] are the fields of one
    process state, every function of the module is a function on that
    state, and the interrupter thread is a small-step machine whose steps
    are the stretches of [waitLoop] between two suspension points. *)

From Stdlib Require Import List String Ascii ZArith Bool Lia.
Import ListNotations.
Open Scope string_scope.
Open Scope Z_scope.

(** ** Data *)

Module Py.

(** The two console streams a [StreamHandler] is built on. *)
Inductive stream := Stdout | Stderr.

(** A log message is any Python object; only strings can be concatenated
    with a string. [VOther ty shown] is an object of type [ty] that is
    not a string and whose [str()] is [shown]. *)
Inductive pyval :=
| VStr (s : string)
| VOther (tyname : string) (shown : string).

Definition str (v : pyval) : string :=
  match v with
  | VStr s => s
  | VOther _ shown => shown
  end.

(** The exception classes the module meets. *)
Inductive exn :=
| AttributeError (m : string)
| NameError (m : string)
| SystemExit (code : Z)
| TypeError (m : string)
| ThreadError (m : string)      (* thread.error *)
| AssertionError (m : string).

Definition str_exn (e : exn) : string :=
  match e with
  | AttributeError m | NameError m | TypeError m
  | ThreadError m | AssertionError m => m
  | SystemExit _ => "SystemExit"
  end.

(** A class attribute that holds a [threading.Lock]: it can be absent
    (after [del]), bound to [None], or bound to a lock object. *)
Inductive lockattr :=
| Deleted
| IsNone
| LockObj (locked : bool).

(** [Condition(Lock())]: the mutex and the threads asleep in [wait], in
    the order they went to sleep. *)
Record Monitor := { mlocked : bool; waiters : list nat }.

End Py.
Import Py.

Definition nl : string := String "010"%char EmptyString.

(** Levels of the [logging] module, and the class variable
    [ScrollableHandler.SCROLL]. *)
Definition NOTSET : Z := 0.
Definition DEBUG : Z := 10.
Definition SCROLL : Z := 11.
Definition INFO : Z := 20.
Definition WARNING : Z := 30.
Definition ERROR : Z := 40.

(** The filter classes of the module. *)
Inductive Filter := OutFilter | LogFileFilter.

(** A [ScrollableHandler]: its stream and the filters added to it. *)
Record Handler := { h_stream : stream; h_filters : list Filter; h_level : Z }.

(** A [LogRecord]: [scrollableHandler] is the attribute
    [queueScrollInterrupt] adds to it. *)
Record LogRecord := {
  levelno : Z;
  msg : pyval;
  scrollableHandler : option Handler
}.

Definition set_msg (r : LogRecord) (m : pyval) : LogRecord :=
  {| levelno := levelno r; msg := m; scrollableHandler := scrollableHandler r |}.

Definition set_scrollableHandler (r : LogRecord) (h : Handler) : LogRecord :=
  {| levelno := levelno r; msg := msg r; scrollableHandler := Some h |}.

(** What reached the outside: a write of [StreamHandler.emit] on the
    stream of a handler, with the record as it was passed; a [print]
    statement; or the traceback [logging.Handler.handleError] prints
    when the write of [StreamHandler.emit] has raised. *)
Inductive out :=
| Emitted (h : Handler) (r : LogRecord)
| Printed (text : string)
| Reported (traceback : string).

(** The text a console stream receives: [StreamHandler.emit] writes
    ["%s\n" % msg], [print] writes to standard output, [handleError]
    writes its traceback to standard error. *)
Definition console_text (o : out) : stream * string :=
  match o with
  | Emitted h r => (h_stream h, str (msg r) ++ nl)
  | Printed t => (Stdout, t ++ nl)
  | Reported t => (Stderr, t)
  end.

(** ** The interrupter thread *)

(** Where a [ScrollInterrupter] thread stands in [run]/[waitLoop]. *)
Inductive wpc :=
| LoopHead                          (* line 176: while not self.checkShutdown() *)
| WaitAcquire                       (* line 126: pendingMonitor.acquire() in wait() *)
| IdleWaiting                       (* line 128: asleep in pendingMonitor.wait(None) *)
| AcquireScroll                     (* line 184: scrollLock.acquire() *)
| AcquirePending                    (* line 186: pendingMonitor.acquire() *)
| Drain                             (* lines 194-195 *)
| Emitting (records : list LogRecord)  (* lines 198-205: the for loop *)
| GraceWaiting (deadline : Z)       (* line 205: asleep in pendingMonitor.wait(5) *)
| AfterGrace                        (* lines 210-219 *)
| ReleaseScroll                     (* line 221 *)
| Dead.                             (* run() has returned *)

Record Interrupter := { pc : wpc; hadQuickWait : bool }.

Definition at_pc (w : Interrupter) (p : wpc) : Interrupter :=
  {| pc := p; hadQuickWait := hadQuickWait w |}.

(** ** The process state *)

Record State := {
  (* class attributes of ScrollableHandler *)
  scrollFlag : bool;
  scrollInterrupted : bool;
  scrollLock : lockattr;
  (* class attributes of ScrollInterrupter *)
  pendingMonitor : Monitor;
  notifiedMonitor : bool;
  pendingLogRecords : list LogRecord;
  (* attributes of the Hellanzb package *)
  shutdown : bool;
  DEBUG_MODE : bool;
  SCROLL_INTERRUPT_WAIT : Z;
  SHUTDOWN_CODE : Z;
  logger_handlers : list Handler;
  (* the threads started by init(), the clock and the output *)
  interrupters : list Interrupter;
  now : Z;
  output : list out
}.

Definition set_scrollFlag (b : bool) (s : State) : State :=
  {| scrollFlag := b; scrollInterrupted := scrollInterrupted s;
     scrollLock := scrollLock s; pendingMonitor := pendingMonitor s;
     notifiedMonitor := notifiedMonitor s;
     pendingLogRecords := pendingLogRecords s; shutdown := shutdown s;
     DEBUG_MODE := DEBUG_MODE s;
     SCROLL_INTERRUPT_WAIT := SCROLL_INTERRUPT_WAIT s;
     SHUTDOWN_CODE := SHUTDOWN_CODE s;
     logger_handlers := logger_handlers s;
     interrupters := interrupters s; now := now s; output := output s |}.

Definition set_scrollInterrupted (b : bool) (s : State) : State :=
  {| scrollFlag := scrollFlag s; scrollInterrupted := b;
     scrollLock := scrollLock s; pendingMonitor := pendingMonitor s;
     notifiedMonitor := notifiedMonitor s;
     pendingLogRecords := pendingLogRecords s; shutdown := shutdown s;
     DEBUG_MODE := DEBUG_MODE s;
     SCROLL_INTERRUPT_WAIT := SCROLL_INTERRUPT_WAIT s;
     SHUTDOWN_CODE := SHUTDOWN_CODE s;
     logger_handlers := logger_handlers s;
     interrupters := interrupters s; now := now s; output := output s |}.

Definition set_scrollLock (l : lockattr) (s : State) : State :=
  {| scrollFlag := scrollFlag s; scrollInterrupted := scrollInterrupted s;
     scrollLock := l; pendingMonitor := pendingMonitor s;
     notifiedMonitor := notifiedMonitor s;
     pendingLogRecords := pendingLogRecords s; shutdown := shutdown s;
     DEBUG_MODE := DEBUG_MODE s;
     SCROLL_INTERRUPT_WAIT := SCROLL_INTERRUPT_WAIT s;
     SHUTDOWN_CODE := SHUTDOWN_CODE s;
     logger_handlers := logger_handlers s;
     interrupters := interrupters s; now := now s; output := output s |}.

Definition set_pendingMonitor (m : Monitor) (s : State) : State :=
  {| scrollFlag := scrollFlag s; scrollInterrupted := scrollInterrupted s;
     scrollLock := scrollLock s; pendingMonitor := m;
     notifiedMonitor := notifiedMonitor s;
     pendingLogRecords := pendingLogRecords s; shutdown := shutdown s;
     DEBUG_MODE := DEBUG_MODE s;
     SCROLL_INTERRUPT_WAIT := SCROLL_INTERRUPT_WAIT s;
     SHUTDOWN_CODE := SHUTDOWN_CODE s;
     logger_handlers := logger_handlers s;
     interrupters := interrupters s; now := now s; output := output s |}.

Definition set_notifiedMonitor (b : bool) (s : State) : State :=
  {| scrollFlag := scrollFlag s; scrollInterrupted := scrollInterrupted s;
     scrollLock := scrollLock s; pendingMonitor := pendingMonitor s;
     notifiedMonitor := b;
     pendingLogRecords := pendingLogRecords s; shutdown := shutdown s;
     DEBUG_MODE := DEBUG_MODE s;
     SCROLL_INTERRUPT_WAIT := SCROLL_INTERRUPT_WAIT s;
     SHUTDOWN_CODE := SHUTDOWN_CODE s;
     logger_handlers := logger_handlers s;
     interrupters := interrupters s; now := now s; output := output s |}.

Definition set_pendingLogRecords (l : list LogRecord) (s : State) : State :=
  {| scrollFlag := scrollFlag s; scrollInterrupted := scrollInterrupted s;
     scrollLock := scrollLock s; pendingMonitor := pendingMonitor s;
     notifiedMonitor := notifiedMonitor s;
     pendingLogRecords := l; shutdown := shutdown s;
     DEBUG_MODE := DEBUG_MODE s;
     SCROLL_INTERRUPT_WAIT := SCROLL_INTERRUPT_WAIT s;
     SHUTDOWN_CODE := SHUTDOWN_CODE s;
     logger_handlers := logger_handlers s;
     interrupters := interrupters s; now := now s; output := output s |}.

Definition set_shutdown (b : bool) (s : State) : State :=
  {| scrollFlag := scrollFlag s; scrollInterrupted := scrollInterrupted s;
     scrollLock := scrollLock s; pendingMonitor := pendingMonitor s;
     notifiedMonitor := notifiedMonitor s;
     pendingLogRecords := pendingLogRecords s; shutdown := b;
     DEBUG_MODE := DEBUG_MODE s;
     SCROLL_INTERRUPT_WAIT := SCROLL_INTERRUPT_WAIT s;
     SHUTDOWN_CODE := SHUTDOWN_CODE s;
     logger_handlers := logger_handlers s;
     interrupters := interrupters s; now := now s; output := output s |}.

Definition set_interrupters (ws : list Interrupter) (s : State) : State :=
  {| scrollFlag := scrollFlag s; scrollInterrupted := scrollInterrupted s;
     scrollLock := scrollLock s; pendingMonitor := pendingMonitor s;
     notifiedMonitor := notifiedMonitor s;
     pendingLogRecords := pendingLogRecords s; shutdown := shutdown s;
     DEBUG_MODE := DEBUG_MODE s;
     SCROLL_INTERRUPT_WAIT := SCROLL_INTERRUPT_WAIT s;
     SHUTDOWN_CODE := SHUTDOWN_CODE s;
     logger_handlers := logger_handlers s;
     interrupters := ws; now := now s; output := output s |}.

Definition set_now (t : Z) (s : State) : State :=
  {| scrollFlag := scrollFlag s; scrollInterrupted := scrollInterrupted s;
     scrollLock := scrollLock s; pendingMonitor := pendingMonitor s;
     notifiedMonitor := notifiedMonitor s;
     pendingLogRecords := pendingLogRecords s; shutdown := shutdown s;
     DEBUG_MODE := DEBUG_MODE s;
     SCROLL_INTERRUPT_WAIT := SCROLL_INTERRUPT_WAIT s;
     SHUTDOWN_CODE := SHUTDOWN_CODE s;
     logger_handlers := logger_handlers s;
     interrupters := interrupters s; now := t; output := output s |}.

Definition write (o : out) (s : State) : State :=
  {| scrollFlag := scrollFlag s; scrollInterrupted := scrollInterrupted s;
     scrollLock := scrollLock s; pendingMonitor := pendingMonitor s;
     notifiedMonitor := notifiedMonitor s;
     pendingLogRecords := pendingLogRecords s; shutdown := shutdown s;
     DEBUG_MODE := DEBUG_MODE s;
     SCROLL_INTERRUPT_WAIT := SCROLL_INTERRUPT_WAIT s;
     SHUTDOWN_CODE := SHUTDOWN_CODE s;
     logger_handlers := logger_handlers s;
     interrupters := interrupters s; now := now s;
     output := output s ++ [o] |}.

(** ** Outcomes of a call

    A call returns, raises, or suspends its thread at a blocking
    [acquire] ([Blocks]: nothing has happened yet that another thread
    can see). *)
Inductive result (A : Type) :=
| Ok (a : A) (s : State)
| Raise (e : exn) (s : State)
| Blocks.
Arguments Ok {A} a s.
Arguments Raise {A} e s.
Arguments Blocks {A}.

(** [try: body finally: fin], where [fin] cannot fail. *)
Definition try_finally {A} (body : result A) (fin : State -> State) : result A :=
  match body with
  | Ok a s => Ok a (fin s)
  | Raise e s => Raise e (fin s)
  | Blocks => Blocks
  end.

(** ** Locks *)

Definition attr_missing : exn :=
  AttributeError "type object 'ScrollableHandler' has no attribute 'scrollLock'".

Definition none_has_no (meth : string) : exn :=
  AttributeError ("'NoneType' object has no attribute '" ++ meth ++ "'").

(** [ScrollableHandler.scrollLock.acquire(blocking)]: the attribute is
    looked up, then the lock is taken; without [blocking] a held lock
    answers [False]. *)
Definition scrollLock_acquire (blocking : bool) (s : State) : result bool :=
  match scrollLock s with
  | Deleted => Raise attr_missing s
  | IsNone => Raise (none_has_no "acquire") s
  | LockObj false => Ok true (set_scrollLock (LockObj true) s)
  | LockObj true => if blocking then Blocks else Ok false s
  end.

(** [ScrollableHandler.scrollLock.release()]. *)
Definition scrollLock_release (s : State) : result unit :=
  match scrollLock s with
  | Deleted => Raise attr_missing s
  | IsNone => Raise (none_has_no "release") s
  | LockObj true => Ok tt (set_scrollLock (LockObj false) s)
  | LockObj false => Raise (ThreadError "release unlocked lock") s
  end.

Definition set_mlocked (b : bool) (s : State) : State :=
  set_pendingMonitor
    {| mlocked := b; waiters := waiters (pendingMonitor s) |} s.

Definition set_waiters (l : list nat) (s : State) : State :=
  set_pendingMonitor
    {| mlocked := mlocked (pendingMonitor s); waiters := l |} s.

(** [ScrollInterrupter.pendingMonitor.acquire()], always blocking. *)
Definition pendingMonitor_acquire (s : State) : result unit :=
  if mlocked (pendingMonitor s) then Blocks else Ok tt (set_mlocked true s).

(** [ScrollInterrupter.pendingMonitor.release()]. *)
Definition pendingMonitor_release (s : State) : result unit :=
  if mlocked (pendingMonitor s) then Ok tt (set_mlocked false s)
  else Raise (ThreadError "release unlocked lock") s.

(** [ScrollInterrupter.pendingMonitor.notify()]: the thread that has
    slept longest is woken; with nobody asleep nothing happens. *)
Definition pendingMonitor_notify (s : State) : result unit :=
  if mlocked (pendingMonitor s)
  then Ok tt (set_waiters (tl (waiters (pendingMonitor s))) s)
  else Raise (AssertionError "notify() of un-acquired lock") s.

(** ** ScrollableHandler *)

Definition filter_one (f : Filter) (record : LogRecord) (s : State) : bool :=
  match f with
  | OutFilter =>
      if levelno record >? WARNING then false
      else if (levelno record =? DEBUG) && negb (DEBUG_MODE s) then false
      else true
  | LogFileFilter =>
      if levelno record =? SCROLL then false else true
  end.

(** [logging.Filterer.filter]: every filter must accept. *)
Fixpoint filter_all (fs : list Filter) (record : LogRecord) (s : State) : bool :=
  match fs with
  | [] => true
  | f :: fs' => if filter_one f record s then filter_all fs' record s else false
  end.

Definition filter (h : Handler) (record : LogRecord) (s : State) : bool :=
  filter_all (h_filters h) record s.

(** The methods of this section are the calls as they run in a process
    where no other thread is inside a call on the same handler and the
    console takes what is written to it: the lock of the handler
    ([self.acquire()], [self.release()]) is then free when it is asked
    for and free again afterwards, and the write of [StreamHandler.emit]
    succeeds. [Call.emit], [Call.emitSynchronized] and [Call.handle]
    below are the same methods with the lock of the handler and a write
    that may raise; [handle_undisturbed] relates the two. *)

(** [StreamHandler.emit] when the write succeeds. *)
Definition emit (h : Handler) (record : LogRecord) (s : State) : State :=
  write (Emitted h record) s.

(** [emitSynchronized] when the lock of the handler is free. *)
Definition emitSynchronized (h : Handler) (record : LogRecord) (s : State) : State :=
  emit h record s.

Definition queueScrollInterrupt (h : Handler) (record : LogRecord) (s : State)
  : result unit :=
  let record := set_scrollableHandler record h in
  match pendingMonitor_acquire s with
  | Blocks => Blocks
  | Raise e s1 => Raise e s1
  | Ok _ s1 =>
      let s2 := set_pendingLogRecords (pendingLogRecords s1 ++ [record]) s1 in
      match pendingMonitor_notify s2 with
      | Ok _ s3 => pendingMonitor_release (set_notifiedMonitor true s3)
      | Raise e s3 =>
          match pendingMonitor_release s3 with
          | Ok _ s4 => Raise e s4
          | other => other
          end
      | Blocks => Blocks
      end
  end.

Definition handle (h : Handler) (record : LogRecord) (s : State) : result bool :=
  let rv := filter h record s in
  if rv then
    if levelno record =? SCROLL then
      match scrollLock_acquire false s with
      | Ok true s1 =>
          let s2 := set_scrollInterrupted false s1 in
          let s3 := emitSynchronized h record s2 in
          match scrollLock_release s3 with
          | Ok _ s4 => Ok rv s4
          | Raise e s4 => Raise e s4
          | Blocks => Blocks
          end
      | Ok false s1 => Ok rv s1
      | Raise e s1 => Raise e s1
      | Blocks => Blocks
      end
    else if scrollFlag s then
      match queueScrollInterrupt h record s with
      | Ok _ s1 => Ok rv s1
      | Raise e s1 => Raise e s1
      | Blocks => Blocks
      end
    else Ok rv (emitSynchronized h record s)
  else Ok rv s.

(** ** ScrollInterrupter *)

Module ScrollInterrupter.

Definition lead : string := nl ++ nl ++ nl ++ nl.
Definition trail : string := nl ++ nl.

Definition format (record : LogRecord) (s : State) : result LogRecord :=
  if negb (scrollInterrupted s) then
    match msg record with
    | VStr m =>
        Ok (set_msg record (VStr (lead ++ m ++ trail)))
           (set_scrollInterrupted true s)
    | VOther ty _ =>
        Raise (TypeError ("cannot concatenate 'str' and '" ++ ty ++ "' objects")) s
    end
  else
    match msg record with
    | VStr m => Ok (set_msg record (VStr (m ++ trail))) s
    | VOther ty _ =>
        Raise (TypeError ("unsupported operand type(s) for +: '" ++ ty
                          ++ "' and 'str'")) s
    end.

Definition no_handler : exn :=
  AttributeError "LogRecord instance has no attribute 'scrollableHandler'".

(** [emit]: [format], then [emitToParent]. *)
Definition emit (record : LogRecord) (s : State) : result unit :=
  match format record s with
  | Ok record s1 =>
      match scrollableHandler record with
      | Some h => Ok tt (emit h record s1)
      | None => Raise no_handler s1
      end
  | Raise e s1 => Raise e s1
  | Blocks => Blocks
  end.

(** [handle]: [emit] between [acquire] and [release] of the lock of the
    record's handler, when that lock is free ([Call.interrupter_handle]
    is the method with the lock). Both look the attribute
    [scrollableHandler] up on the record. *)
Definition handle (record : LogRecord) (s : State) : result unit :=
  match scrollableHandler record with
  | None => Raise no_handler s
  | Some _ => try_finally (emit record s) (fun s => s)
  end.

Definition checkShutdown (s : State) : result bool :=
  if shutdown s then Raise (SystemExit (SHUTDOWN_CODE s)) s else Ok false s.

(** The [except] clauses of [run]: what an exception that leaves
    [waitLoop] does before the thread ends. *)
Definition run_except (e : exn) (s : State) : State :=
  match e with
  | AttributeError _ | NameError _ => s
  | SystemExit _ => s
  | _ => write (Printed ("Error in ScrollInterrupter: " ++ str_exn e)) s
  end.

End ScrollInterrupter.

(** ** The steps of [waitLoop]

    [wstep i w s] runs interrupter thread [i], whose own state is [w],
    from where it stands to its next suspension point. [None]: the thread
    is suspended and cannot move in [s]. *)

Definition die (w : Interrupter) (e : exn) (s : State) : Interrupter * State :=
  (at_pc w Dead, ScrollInterrupter.run_except e s).

Definition mem (i : nat) (l : list nat) : bool := existsb (Nat.eqb i) l.

Definition remove_waiter (i : nat) (l : list nat) : list nat :=
  List.filter (fun j => negb (Nat.eqb i j)) l.

Definition wstep (i : nat) (w : Interrupter) (s : State)
  : option (Interrupter * State) :=
  match pc w with
  | LoopHead =>
      match ScrollInterrupter.checkShutdown s with
      | Raise e s1 => Some (die w e s1)
      | _ =>
          if negb (hadQuickWait w) then Some (at_pc w WaitAcquire, s)
          else Some ({| pc := Drain; hadQuickWait := false |}, s)
      end
  | WaitAcquire =>
      (* wait(): acquire the monitor, go to sleep in wait(None) *)
      match pendingMonitor_acquire s with
      | Ok _ s1 =>
          Some (at_pc w IdleWaiting,
                set_mlocked false
                  (set_waiters (waiters (pendingMonitor s1) ++ [i]) s1))
      | Raise e s1 => Some (die w e s1)
      | Blocks => None
      end
  | IdleWaiting =>
      (* woken by notify(): take the monitor back, lines 129-132 *)
      if mem i (waiters (pendingMonitor s)) then None
      else
        match pendingMonitor_acquire s with
        | Ok _ s1 =>
            let s2 := if notifiedMonitor s1
                      then set_notifiedMonitor false s1 else s1 in
            match pendingMonitor_release s2 with
            | Ok _ s3 => Some (at_pc w AcquireScroll, s3)
            | Raise e s3 => Some (die w e s3)
            | Blocks => None
            end
        | Raise e s1 => Some (die w e s1)
        | Blocks => None
        end
  | AcquireScroll =>
      match scrollLock_acquire true s with
      | Ok _ s1 => Some (at_pc w AcquirePending, s1)
      | Raise e s1 => Some (die w e s1)
      | Blocks => None
      end
  | AcquirePending =>
      match pendingMonitor_acquire s with
      | Ok _ s1 => Some (at_pc w Drain, s1)
      | Raise e s1 => Some (die w e s1)
      | Blocks => None
      end
  | Drain =>
      let records := pendingLogRecords s in
      Some (at_pc w (Emitting records), set_pendingLogRecords [] s)
  | Emitting (record :: rest) =>
      match ScrollInterrupter.handle record s with
      | Ok _ s1 => Some (at_pc w (Emitting rest), s1)
      | Raise e s1 => Some (die w e s1)
      | Blocks => None
      end
  | Emitting [] =>
      (* pendingMonitor.wait(SCROLL_INTERRUPT_WAIT): go to sleep *)
      if mlocked (pendingMonitor s) then
        Some (at_pc w (GraceWaiting (now s + SCROLL_INTERRUPT_WAIT s)),
              set_mlocked false
                (set_waiters (waiters (pendingMonitor s) ++ [i]) s))
      else Some (die w (AssertionError "wait() of un-acquired lock") s)
  | GraceWaiting _ =>
      (* woken by notify(): take the monitor back *)
      if mem i (waiters (pendingMonitor s)) then None
      else
        match pendingMonitor_acquire s with
        | Ok _ s1 => Some (at_pc w AfterGrace, s1)
        | Raise e s1 => Some (die w e s1)
        | Blocks => None
        end
  | AfterGrace =>
      if notifiedMonitor s then
        Some ({| pc := LoopHead; hadQuickWait := true |},
              set_notifiedMonitor false s)
      else
        match pendingMonitor_release s with
        | Ok _ s1 => Some (at_pc w ReleaseScroll, s1)
        | Raise e s1 => Some (die w e s1)
        | Blocks => None
        end
  | ReleaseScroll =>
      match scrollLock_release s with
      | Ok _ s1 => Some (at_pc w LoopHead, s1)
      | Raise e s1 => Some (die w e s1)
      | Blocks => None
      end
  | Dead => None
  end.

(** The timed [wait] of thread [i] runs out: nobody has woken it, its
    deadline has passed; it leaves the sleepers and takes the monitor
    back. *)
Definition wtimeout (i : nat) (w : Interrupter) (s : State)
  : option (Interrupter * State) :=
  match pc w with
  | GraceWaiting deadline =>
      if mem i (waiters (pendingMonitor s)) && (deadline <=? now s) then
        match pendingMonitor_acquire s with
        | Ok _ s1 =>
            Some (at_pc w AfterGrace,
                  set_waiters (remove_waiter i (waiters (pendingMonitor s1))) s1)
        | _ => None
        end
      else None
  | _ => None
  end.

(** ** Sessions and set-up *)

Definition scrollBegin (s : State) : State :=
  set_scrollLock (LockObj false) (set_scrollFlag true s).

Definition scrollEnd (s : State) : result unit :=
  let s1 := set_scrollFlag false s in
  match scrollLock s1 with
  | Deleted => Raise attr_missing s1
  | _ => Ok tt (set_scrollLock Deleted s1)
  end.

Definition outHdlr : Handler :=
  {| h_stream := Stdout; h_filters := [OutFilter]; h_level := NOTSET |}.

Definition errHdlr : Handler :=
  {| h_stream := Stderr; h_filters := []; h_level := ERROR |}.

(** A [ScrollInterrupter] whose [start()] has just been called. *)
Definition started : Interrupter := {| pc := LoopHead; hadQuickWait := false |}.

(** [init()]. The class attributes are bound anew, two handlers are
    added to the logger and one more interrupter is started. The new
    [Condition] of line 331 is the one monitor of the state with no
    sleeper and its mutex free: that is the new object when no
    interrupter stands in a [wait] on the old one, as at the first call
    and at a call that follows another before any thread has moved. *)
Definition init (s : State) : State :=
  {| scrollFlag := false;
     scrollInterrupted := true;
     scrollLock := IsNone;
     pendingMonitor := {| mlocked := false; waiters := [] |};
     notifiedMonitor := false;
     pendingLogRecords := [];
     shutdown := shutdown s;
     DEBUG_MODE := DEBUG_MODE s;
     SCROLL_INTERRUPT_WAIT := 5;
     SHUTDOWN_CODE := SHUTDOWN_CODE s;
     logger_handlers := logger_handlers s ++ [outHdlr; errHdlr];
     interrupters := interrupters s ++ [started];
     now := now s;
     output := output s |}.

(** The process before [init()] has run: no handler, no thread, nothing
    written. The class attributes do not exist yet; [init] assigns every
    one of them, so the values they have here are never read. *)
Definition boot : State :=
  {| scrollFlag := false; scrollInterrupted := false; scrollLock := Deleted;
     pendingMonitor := {| mlocked := false; waiters := [] |};
     notifiedMonitor := false; pendingLogRecords := [];
     shutdown := false; DEBUG_MODE := false;
     SCROLL_INTERRUPT_WAIT := 0; SHUTDOWN_CODE := 0;
     logger_handlers := []; interrupters := []; now := 0; output := [] |}.

(** ** The process as a transition system

    Threads interleave at the granularity of the calls and steps above:
    a call of a caller thread runs as one step, a step of an interrupter
    thread runs from one suspension point to the next. The runs of this
    system are the schedules of the process in which no thread moves
    while a caller is inside [handle]: the states in which a caller
    stands in the middle of a call (a scroll line being written, the
    scroll lock and the lock of the handler held for it) are not among
    its states. What [Call.handle] says of a call holds whatever the
    other threads hold at that moment. *)

Inductive label :=
| LHandle (h : Handler) (record : LogRecord)   (* some thread calls h.handle(record) *)
| LScrollBegin
| LScrollEnd
| LShutdown                                    (* Hellanzb.shutdown = True *)
| LWorker (i : nat)                            (* interrupter i moves on *)
| LTimeout (i : nat)                           (* the timed wait of i runs out *)
| LTick.                                       (* one unit of time passes *)

Fixpoint set_nth {A} (i : nat) (x : A) (l : list A) : list A :=
  match l, i with
  | [], _ => []
  | _ :: l', O => x :: l'
  | y :: l', S i' => y :: set_nth i' x l'
  end.

Definition settle (i : nat) (r : option (Interrupter * State)) : option State :=
  match r with
  | Some (w, s) => Some (set_interrupters (set_nth i w (interrupters s)) s)
  | None => None
  end.

Definition after {A} (r : result A) : option State :=
  match r with
  | Ok _ s => Some s
  | Raise _ s => Some s
  | Blocks => None
  end.

Definition step (l : label) (s : State) : option State :=
  match l with
  | LHandle h record => after (handle h record s)
  | LScrollBegin => Some (scrollBegin s)
  | LScrollEnd => after (scrollEnd s)
  | LShutdown => Some (set_shutdown true s)
  | LWorker i =>
      match nth_error (interrupters s) i with
      | Some w => settle i (wstep i w s)
      | None => None
      end
  | LTimeout i =>
      match nth_error (interrupters s) i with
      | Some w => settle i (wtimeout i w s)
      | None => None
      end
  | LTick => Some (set_now (now s + 1) s)
  end.

Fixpoint exec (ls : list label) (s : State) : option State :=
  match ls with
  | [] => Some s
  | l :: ls' =>
      match step l s with
      | Some s1 => exec ls' s1
      | None => None
      end
  end.

(** The states a run passes through, the first one included. *)
Fixpoint states_along (ls : list label) (s : State) : list State :=
  s :: match ls with
       | [] => []
       | l :: ls' =>
           match step l s with
           | Some s1 => states_along ls' s1
           | None => []
           end
       end.


(** * The calls among other threads

    [ScrollableHandler.handle] and [ScrollInterrupter.handle] with what
    they meet outside the class attributes: the lock every
    [logging.Handler] has ([createLock]: a [threading.RLock], taken by
    [acquire()] and given up by [release()]), which another thread may
    hold, and a stream whose write raises. *)

Module Call.

(** A [threading.RLock]: free, or held by the thread [owner], which has
    taken it [again] more times after the first. *)
Inductive RLock :=
| Free
| Held (owner : nat) (again : nat).

(** [RLock.acquire()] by thread [me]: [None] when another thread holds
    the lock, and [me] has to wait. *)
Definition RLock_acquire (me : nat) (l : RLock) : option RLock :=
  match l with
  | Free => Some (Held me 0)
  | Held owner again =>
      if Nat.eqb owner me then Some (Held me (S again)) else None
  end.

(** [RLock.release()] by thread [me]: [None] when [me] does not hold the
    lock, which is an [AssertionError]. *)
Definition RLock_release (me : nat) (l : RLock) : option RLock :=
  match l with
  | Free => None
  | Held owner again =>
      if Nat.eqb owner me then
        Some match again with
             | O => Free
             | S less => Held me less
             end
      else None
  end.

Definition not_owner : exn := AssertionError "release() of un-acquired lock".

(** Another thread than [me] holds the lock. *)
Definition held_by_other (me : nat) (l : RLock) : bool :=
  match l with
  | Free => false
  | Held owner _ => negb (Nat.eqb owner me)
  end.

(** Who makes a call, and what the console does with a write:
    [write_raises h] is [Some traceback] when the write on the stream of
    [h] raises, [traceback] being what [logging.Handler.handleError]
    prints for it. *)
Record Env := {
  me : nat;
  write_raises : Handler -> option string
}.

(** The blocking [acquire]s of the module. *)
Inductive point :=
| ScrollLock                    (* ScrollableHandler.scrollLock.acquire() *)
| PendingMonitor                (* ScrollInterrupter.pendingMonitor.acquire() *)
| HandlerLock (h : Handler).    (* h.acquire() *)

(** A call returns, raises, or suspends its thread at a blocking
    [acquire]. Each time: the class attributes and the lock of the
    handler the call is about, as the call has left them; for
    [Suspended] that is what the other threads see while the caller
    waits. *)
Inductive outcome (A : Type) :=
| Returns (a : A) (s : State) (l : RLock)
| Raises (e : exn) (s : State) (l : RLock)
| Suspended (p : point) (s : State) (l : RLock).
Arguments Returns {A} a s l.
Arguments Raises {A} e s l.
Arguments Suspended {A} p s l.

(** A call that does not touch the lock of the handler, waits nowhere
    but at [p], and has changed nothing when it does. *)
Definition waiting_at {A} (p : point) (s : State) (l : RLock) (r : result A)
  : outcome A :=
  match r with
  | Ok a s1 => Returns a s1 l
  | Raise e s1 => Raises e s1 l
  | Blocks => Suspended p s l
  end.

(** [try: body finally: release()], by thread [me]: the lock is given
    up when the body has returned and when it has raised. *)
Definition finally_release {A} (me : nat) (body : outcome A) : outcome A :=
  match body with
  | Returns a s l =>
      match RLock_release me l with
      | Some l1 => Returns a s l1
      | None => Raises not_owner s l
      end
  | Raises e s l =>
      match RLock_release me l with
      | Some l1 => Raises e s l1
      | None => Raises not_owner s l
      end
  | Suspended p s l => Suspended p s l
  end.

(** [StreamHandler.emit]: the message and a newline are written to the
    stream; whatever that raises is caught in [emit] itself, which has
    [handleError] print the traceback on standard error, and the call
    returns. *)
Definition emit (env : Env) (h : Handler) (record : LogRecord) (s : State)
  : State :=
  match write_raises env h with
  | None => write (Emitted h record) s
  | Some traceback => write (Reported traceback) s
  end.

(** [emitSynchronized], lines 54-60: [self.acquire()], which waits while
    another thread has the lock of the handler; then [emit], and
    [self.release()] in the [finally] clause. [l] is the lock of [h]. *)
Definition emitSynchronized (env : Env) (h : Handler) (record : LogRecord)
    (s : State) (l : RLock) : outcome unit :=
  match RLock_acquire (me env) l with
  | None => Suspended (HandlerLock h) s l
  | Some l1 => finally_release (me env) (Returns tt (emit env h record s) l1)
  end.

(** [queueScrollInterrupt], lines 62-75: it takes no lock of a handler
    and writes nothing; it waits for the mutex of the pending monitor
    only. *)
Definition queueScrollInterrupt (h : Handler) (record : LogRecord) (s : State)
    (l : RLock) : outcome unit :=
  waiting_at PendingMonitor s l (queueScrollInterrupt h record s).

(** [ScrollableHandler.handle], lines 20-52. [l] is the lock of [h]. *)
Definition handle (env : Env) (h : Handler) (record : LogRecord) (s : State)
    (l : RLock) : outcome bool :=
  let rv := filter h record s in
  if rv then
    if levelno record =? SCROLL then
      match scrollLock_acquire false s with
      | Ok true s1 =>
          let s2 := set_scrollInterrupted false s1 in
          match emitSynchronized env h record s2 l with
          | Returns _ s3 l3 =>
              match scrollLock_release s3 with
              | Ok _ s4 => Returns rv s4 l3
              | Raise e s4 => Raises e s4 l3
              | Blocks => Suspended ScrollLock s3 l3
              end
          | Raises e s3 l3 =>
              match scrollLock_release s3 with
              | Ok _ s4 => Raises e s4 l3
              | Raise e' s4 => Raises e' s4 l3
              | Blocks => Suspended ScrollLock s3 l3
              end
          | Suspended p s3 l3 => Suspended p s3 l3
          end
      | Ok false s1 => Returns rv s1 l
      | Raise e s1 => Raises e s1 l
      | Blocks => Suspended ScrollLock s l
      end
    else if scrollFlag s then
      match queueScrollInterrupt h record s l with
      | Returns _ s1 l1 => Returns rv s1 l1
      | Raises e s1 l1 => Raises e s1 l1
      | Suspended p s1 l1 => Suspended p s1 l1
      end
    else
      match emitSynchronized env h record s l with
      | Returns _ s1 l1 => Returns rv s1 l1
      | Raises e s1 l1 => Raises e s1 l1
      | Suspended p s1 l1 => Suspended p s1 l1
      end
  else Returns rv s l.

(** [ScrollInterrupter.emit], lines 112-120: [format], then
    [emitToParent], which calls [emit] of the record's handler. *)
Definition interrupter_emit (env : Env) (record : LogRecord) (s : State)
  : result unit :=
  match ScrollInterrupter.format record s with
  | Ok record s1 =>
      match scrollableHandler record with
      | Some h => Ok tt (emit env h record s1)
      | None => Raise ScrollInterrupter.no_handler s1
      end
  | Raise e s1 => Raise e s1
  | Blocks => Blocks
  end.

(** [ScrollInterrupter.handle], lines 102-110: [self.acquire(record)],
    which waits while another thread has the lock of the record's
    handler; then [emit], which waits nowhere, and
    [self.release(record)] in the [finally] clause. [l] is the lock of
    the record's handler. *)
Definition interrupter_handle (env : Env) (record : LogRecord) (s : State)
    (l : RLock) : outcome unit :=
  match scrollableHandler record with
  | None => Raises ScrollInterrupter.no_handler s l
  | Some h =>
      match RLock_acquire (me env) l with
      | None => Suspended (HandlerLock h) s l
      | Some l1 =>
          finally_release (me env)
            (waiting_at (HandlerLock h) s l1 (interrupter_emit env record s))
      end
  end.

(** The step of an interrupter that stands in the [for] loop of lines
    198-199 with a record to handle, taken with [interrupter_handle];
    elsewhere, the step of [wstep]. [l] is the lock of the handler of
    that record. *)
Definition wstep (env : Env) (i : nat) (w : Interrupter) (s : State)
    (l : RLock) : option (Interrupter * State * RLock) :=
  match pc w with
  | Emitting (record :: rest) =>
      match interrupter_handle env record s l with
      | Returns _ s1 l1 => Some (at_pc w (Emitting rest), s1, l1)
      | Raises e s1 l1 => Some (die w e s1, l1)
      | Suspended _ _ _ => None
      end
  | _ =>
      match wstep i w s with
      | Some r => Some (r, l)
      | None => None
      end
  end.

End Call.
(** * Predicates and scenarios *)

(** A state reached by the process after [init()]. *)
Definition reachable (s : State) : Prop :=
  exists s0 ls, exec ls (init s0) = Some s.

(** While a session is on, [scrollLock] is bound to a lock. *)
Definition session_has_lock (s : State) : Prop :=
  scrollFlag s = true -> exists b, scrollLock s = LockObj b.

(** A record as the logger builds it: [Hellanzb.logger.log(level, message)]. *)
Definition mk_record (level : Z) (message : pyval) : LogRecord :=
  {| levelno := level; msg := message; scrollableHandler := None |}.



Definition ticks (n : nat) : list label := repeat LTick n.

Module Scenario.

(** The process right after [init()], and after [scrollBegin()]. *)
Definition s_init : State := init boot.
Definition s_scrolling : State := scrollBegin s_init.

Definition scroll_line : LogRecord := mk_record SCROLL (VStr "1/10 parts").
Definition warning_a : LogRecord := mk_record WARNING (VStr "a").
Definition warning_b : LogRecord := mk_record WARNING (VStr "b").
Definition warning_c : LogRecord := mk_record WARNING (VStr "c").
Definition error_x : LogRecord := mk_record ERROR (VStr "x").

(** A record whose message is a number, as [info(5)] builds it. *)
Definition info_5 : LogRecord := mk_record INFO (VOther "int" "5").

(** The threads: the interrupter is thread 0, the callers are the
    threads 1 and 2. A caller on a console that takes every write, and
    one on a console whose write raises, with what [handleError] prints
    then. *)
Definition caller : Call.Env :=
  {| Call.me := 1; Call.write_raises := fun _ => None |}.

Definition traceback : string :=
  "Traceback (most recent call last):" ++ nl
  ++ "IOError: [Errno 32] Broken pipe" ++ nl.

Definition broken_pipe : Call.Env :=
  {| Call.me := 1; Call.write_raises := fun _ => Some traceback |}.

Definition interrupter_on_broken_pipe : Call.Env :=
  {| Call.me := 0; Call.write_raises := fun _ => Some traceback |}.

(** The lock of a handler while thread 2 is inside a call on it. *)
Definition taken : Call.RLock := Call.Held 2 0.

Definition worker0 (s : State) : wpc :=
  match interrupters s with
  | w :: _ => pc w
  | [] => Dead
  end.

Definition run_from (s : State) (ls : list label) : State :=
  match exec ls s with
  | Some s' => s'
  | None => s
  end.

(** The interrupter goes to sleep in [wait()]. *)
Definition to_idle : list label := [LWorker 0; LWorker 0].

(** Woken, the interrupter leaves [wait()], takes the scroll lock and
    the monitor, and copies the pending records. *)
Definition wake_and_drain : list label :=
  [LWorker 0; LWorker 0; LWorker 0; LWorker 0].

(** A session begins, a warning is logged, the interrupter is about to
    print it: the first record of the first episode. *)
Definition first_episode : list label :=
  to_idle ++ [LScrollBegin; LHandle outHdlr warning_a] ++ wake_and_drain.

Definition s_draining : State := run_from s_init first_episode.

(** The same after a scroll line has been written. *)
Definition scroll_then_warning : list label :=
  to_idle ++ [LScrollBegin; LHandle outHdlr scroll_line;
              LHandle outHdlr warning_a] ++ wake_and_drain.

Definition s_after_scroll : State := run_from s_init scroll_then_warning.


(** Two records are pending, the first with a number for a message. *)
Definition bad_batch : list label :=
  to_idle ++ [LScrollBegin; LHandle outHdlr info_5;
              LHandle outHdlr warning_b] ++ wake_and_drain.

Definition s_bad_batch : State := run_from s_init bad_batch.

Definition s_dead : State := run_from s_bad_batch [LWorker 0].

(** A warning is printed, the timed wait runs out with nothing new, and
    the interrupter has just given up the monitor (line 219). *)
Definition episode_ending : list label :=
  first_episode ++ [LWorker 0; LWorker 0] ++ ticks 5 ++ [LTimeout 0; LWorker 0].

Definition s_episode_ending : State := run_from s_init episode_ending.

(** Then the interrupter gives up the scroll lock (line 221), goes
    round the loop and to sleep in [wait()]. *)
Definition back_to_sleep : list label := [LWorker 0; LWorker 0; LWorker 0].

(** A second warning is logged between line 219 and line 126. *)
Definition s_lost : State :=
  run_from s_episode_ending (LHandle outHdlr warning_b :: back_to_sleep).

(** A warning wakes the interrupter; it has left [wait()] (line 132)
    but not yet taken the monitor again (line 186). *)
Definition woken : list label :=
  to_idle ++ [LScrollBegin; LHandle outHdlr warning_a; LWorker 0].

Definition s_woken : State := run_from s_init woken.

(** The interrupter takes both locks, prints what is pending and goes
    to sleep in the timed wait. *)
Definition print_two : list label :=
  [LWorker 0; LWorker 0; LWorker 0; LWorker 0; LWorker 0; LWorker 0].

(** The timed wait runs out after five units with no new record; the
    interrupter goes round the loop and sleeps in the timed wait again. *)
Definition quiet_grace : list label :=
  ticks 5 ++ [LTimeout 0; LWorker 0; LWorker 0; LWorker 0; LWorker 0].

(** Woken from the timed wait, the interrupter prints the new record. *)
Definition print_next : list label :=
  [LWorker 0; LWorker 0; LWorker 0; LWorker 0; LWorker 0].

(** The second warning has been logged at time 0 and printed. *)
Definition s_b_printed : State :=
  run_from s_woken (LHandle outHdlr warning_b :: print_two).

(** Seven units later the third warning is about to be logged. *)
Definition s_c_arrives : State :=
  run_from s_b_printed (quiet_grace ++ ticks 2).

Definition s_c_printed : State :=
  run_from s_c_arrives (LHandle outHdlr warning_c :: print_next).

End Scenario.



(** The scroll lock is bound to a lock that is held. *)
Definition scroll_held (s : State) : bool :=
  match scrollLock s with
  | LockObj true => true
  | _ => false
  end.


(** * More of the module *)

(** ** The two lock methods of [ScrollInterrupter] *)

Definition lockScrollOutput (s : State) : result unit :=
  match scrollLock_acquire true s with
  | Ok _ s1 => Ok tt s1
  | Raise e s1 => Raise e s1
  | Blocks => Blocks
  end.

Definition releaseScrollOutput (s : State) : result unit :=
  scrollLock_release s.

(** ** The logger and the functions that log

    [Hellanzb.logger] is the logger [init()] sets up: its level is
    [ScrollableHandler.SCROLL], its handlers are the [ScrollableHandler]
    on standard output and the plain [StreamHandler] on standard error. *)

Inductive HandlerClass := ScrollableHandlerClass | StreamHandlerClass.

(** [logging.Handler.handle], the method a plain [StreamHandler] has:
    the filters, then [emit] inside the handler's lock; as [emit], with
    the lock free and a stream that takes the write. *)
Definition Handler_handle (h : Handler) (record : LogRecord) (s : State)
  : result bool :=
  let rv := filter h record s in
  if rv then Ok rv (emit h record s) else Ok rv s.

Definition handle_as (c : HandlerClass)
  : Handler -> LogRecord -> State -> result bool :=
  match c with
  | ScrollableHandlerClass => handle
  | StreamHandlerClass => Handler_handle
  end.

(** [logging.Logger.callHandlers]: every handler whose level the record
    reaches, in the order they were added; an exception of a handler
    leaves the loop. (The root logger above [hellanzb] has no handler
    of its own.) *)
Fixpoint callHandlers (hs : list (HandlerClass * Handler))
    (record : LogRecord) (s : State) : result unit :=
  match hs with
  | [] => Ok tt s
  | (c, h) :: hs' =>
      if h_level h <=? levelno record then
        match handle_as c h record s with
        | Ok _ s1 => callHandlers hs' record s1
        | Raise e s1 => Raise e s1
        | Blocks => Blocks
        end
      else callHandlers hs' record s
  end.

Definition console_handlers : list (HandlerClass * Handler) :=
  [(ScrollableHandlerClass, outHdlr); (StreamHandlerClass, errHdlr)].

(** [Hellanzb.logger.setLevel(ScrollableHandler.SCROLL)]. *)
Definition logger_level : Z := SCROLL.

(** [Hellanzb.logger.log(level, message)]: below the logger's level
    nothing happens. *)
Definition logger_log (level : Z) (message : pyval) (s : State) : result unit :=
  if logger_level <=? level
  then callHandlers console_handlers (mk_record level message) s
  else Ok tt s.

Definition warn (message : pyval) (s : State) : result unit :=
  logger_log WARNING message s.

Definition info (message : pyval) (s : State) : result unit :=
  logger_log INFO message s.

Definition debug (message : pyval) (s : State) : result unit :=
  logger_log DEBUG message s.

(** [scroll]: the [time.sleep] after the call changes nothing here. *)
Definition scroll (message : pyval) (s : State) : result unit :=
  logger_log SCROLL message s.

(** The second argument of [error]: nothing, an object that is no
    [Exception], or an exception with the name [getLocalClassName]
    gives its class and with its [str()]. *)
Inductive exception_arg :=
| NoException
| NotAnException
| AnException (localClassName : string) (shown : string).

Definition error (message : pyval) (exception : exception_arg) (s : State)
  : result unit :=
  match exception with
  | AnException cls shown =>
      match message with
      | VStr m =>
          logger_log ERROR (VStr (m ++ ": " ++ cls ++ ": " ++ shown)) s
      | VOther ty _ =>
          Raise (TypeError ("unsupported operand type(s) for +: '" ++ ty
                            ++ "' and 'str'")) s
      end
  | _ => logger_log ERROR message s
  end.

(** ** Further predicates *)

(** The outcome of [handle] on the handler of standard output, as the
    caller of a logging function sees it. *)
Definition through_outHdlr (level : Z) (message : pyval) (s : State)
  : result unit :=
  match handle outHdlr (mk_record level message) s with
  | Ok _ s1 => Ok tt s1
  | Raise e s1 => Raise e s1
  | Blocks => Blocks
  end.

(** Whether an interrupter that stands at this point of [waitLoop] has
    the scroll lock: it takes it at line 184 and gives it up at line
    221. *)
Definition has_scroll_lock (w : Interrupter) : option bool :=
  match pc w with
  | LoopHead => Some (hadQuickWait w)
  | AcquirePending | Drain | Emitting _ | GraceWaiting _ | AfterGrace
  | ReleaseScroll => Some true
  | WaitAcquire | IdleWaiting | AcquireScroll => Some false
  | Dead => None
  end.

(** One interrupter, and a session whose lock is held whenever that
    thread has it. *)
Definition episode_has_lock (s : State) : Prop :=
  exists w, interrupters s = [w] /\
    (has_scroll_lock w = Some true -> scrollLock s = LockObj true) /\
    (pc w <> LoopHead -> pc w <> Dead -> hadQuickWait w = false).

Definition session_label (l : label) : bool :=
  match l with
  | LScrollBegin | LScrollEnd => true
  | _ => false
  end.

(** One interrupter; if it sleeps in a [wait] and has been woken, the
    notified flag is true. *)
Definition woken_is_notified (s : State) : Prop :=
  exists w, interrupters s = [w] /\
    ((pc w = IdleWaiting \/ exists d, pc w = GraceWaiting d) ->
     mem 0 (waiters (pendingMonitor s)) = false ->
     notifiedMonitor s = true).

(** The records on their way to the console: what is left of the
    batch of the first interrupter, then the pending records. *)
Definition batch (s : State) : list LogRecord :=
  match interrupters s with
  | w :: _ => match pc w with Emitting records => records | _ => [] end
  | [] => []
  end.

Definition in_flight (s : State) : list LogRecord :=
  (batch s ++ pendingLogRecords s)%list.

(** A session is on, nothing is pending, and the only interrupter
    sleeps in [wait()] with both locks free. *)
Definition quiet (s : State) : Prop :=
  interrupters s = [{| pc := IdleWaiting; hadQuickWait := false |}] /\
  pendingMonitor s = {| mlocked := false; waiters := [0%nat] |} /\
  scrollFlag s = true /\
  scrollLock s = LockObj false /\
  pendingLogRecords s = [] /\
  notifiedMonitor s = false /\
  shutdown s = false.

(** A batch as it appears in the output when the interrupter prints it
    with the interrupted flag at [flag]: each record on its own handler,
    the first one padded by the flag, the others as after a record. *)
Fixpoint printed_batch (flag : bool) (records : list LogRecord) : list out :=
  match records with
  | [] => []
  | r :: rest =>
      match msg r, scrollableHandler r with
      | VStr m, Some h =>
          Emitted h
            (set_msg r
               (VStr ((if flag then "" else ScrollInterrupter.lead)
                      ++ m ++ ScrollInterrupter.trail)))
          :: printed_batch true rest
      | _, _ => []
      end
  end.

Module Episode.

(** The first warning is printed and the interrupter sleeps in its
    timed wait, the scroll lock held. *)
Definition s_grace : State :=
  Scenario.run_from Scenario.s_draining [LWorker 0; LWorker 0].

(** A second warning is logged before the wait runs out. *)
Definition s_notified : State :=
  Scenario.run_from s_grace [LHandle outHdlr Scenario.warning_b].

(** The interrupter asleep in [wait()] during a session, nothing
    pending. *)
Definition s_quiet : State :=
  Scenario.run_from Scenario.s_init (Scenario.to_idle ++ [LScrollBegin]).

(** What the interrupter does between two sleeps when one record is
    logged, and when its timed wait has run out. *)
Definition print_one : list label := repeat (LWorker 0) 6.

Definition let_go : list label :=
  [LTimeout 0; LWorker 0; LWorker 0; LWorker 0; LWorker 0].

(** Two warnings are logged before the interrupter has woken; it has
    copied both. *)
Definition s_two_copied : State :=
  Scenario.run_from s_quiet
    ([LHandle outHdlr Scenario.warning_a; LHandle outHdlr Scenario.warning_b]
     ++ Scenario.wake_and_drain).

End Episode.
(** * Proofs *)

(** ** Tactics and first facts *)

Ltac atomic x :=
  lazymatch x with
  | context [match _ with _ => _ end] => fail
  | _ => idtac
  end.

Ltac break_match :=
  match goal with
  | H : context [match ?x with _ => _ end] |- _ => atomic x; destruct x eqn:?
  | |- context [match ?x with _ => _ end] => atomic x; destruct x eqn:?
  end.

Ltac break_all := repeat (break_match; simpl in *; try discriminate).

Ltac inv H := inversion H; subst; clear H.

(** Conjunctions are split, equations are left alone; closed equations
    on scenarios are settled by evaluation. *)
Ltac splits := repeat match goal with |- _ /\ _ => split end.
Ltac by_eval := vm_compute; reflexivity.

Ltac unfold_calls :=
  unfold handle, queueScrollInterrupt, emitSynchronized, emit,
    ScrollInterrupter.handle, ScrollInterrupter.emit,
    ScrollInterrupter.format, ScrollInterrupter.checkShutdown,
    ScrollInterrupter.run_except, try_finally,
    scrollLock_acquire, scrollLock_release, pendingMonitor_acquire,
    pendingMonitor_release, pendingMonitor_notify, scrollBegin, scrollEnd,
    set_mlocked, set_waiters in *.

Lemma exec_app (l1 l2 : list label) (s : State) :
  exec (l1 ++ l2) s =
  match exec l1 s with Some s1 => exec l2 s1 | None => None end.
Proof.
  revert s; induction l1 as [|l l1 IH]; intros s; simpl; [reflexivity|].
  destruct (step l s); [apply IH | reflexivity].
Qed.

(** Any property kept by every step holds along every run. *)
Lemma exec_invariant (P : State -> Prop) :
  (forall l s s', step l s = Some s' -> P s -> P s') ->
  forall ls s s', exec ls s = Some s' -> P s -> P s'.
Proof.
  intros Hstep ls; induction ls as [|l ls IH]; simpl; intros s s' He Hs.
  - inv He; assumption.
  - destruct (step l s) as [s1|] eqn:E; [|discriminate].
    eapply IH; eauto.
Qed.

Lemma wstep_scroll_attrs (i : nat) (w w' : Interrupter) (s s' : State) :
  wstep i w s = Some (w', s') ->
  scrollFlag s' = scrollFlag s /\
  ((exists b, scrollLock s = LockObj b) -> exists b, scrollLock s' = LockObj b).
Proof.
  unfold wstep, die; unfold_calls; intros H.
  break_all; inv H; simpl in *; split; try reflexivity;
    intros [b Hb]; try congruence; eauto.
Qed.

Lemma wtimeout_scroll_attrs (i : nat) (w w' : Interrupter) (s s' : State) :
  wtimeout i w s = Some (w', s') ->
  scrollFlag s' = scrollFlag s /\ scrollLock s' = scrollLock s /\
  scrollInterrupted s' = scrollInterrupted s /\ output s' = output s.
Proof.
  unfold wtimeout; unfold_calls; intros H.
  break_all; inv H; simpl in *; auto.
Qed.

Lemma step_session_has_lock (l : label) (s s' : State) :
  step l s = Some s' -> session_has_lock s -> session_has_lock s'.
Proof.
  unfold session_has_lock; destruct l; simpl; intros H Hs.
  - unfold after in H; unfold_calls.
    break_all; inv H; simpl in *; intros F;
      try (destruct (Hs F) as [b Hb]); try congruence; eauto.
  - inv H; simpl; eauto.
  - unfold after in H; unfold_calls.
    break_all; inv H; simpl in *; intros F; congruence.
  - inv H; simpl; auto.
  - destruct (nth_error (interrupters s) i) as [w|]; [|discriminate].
    destruct (wstep i w s) as [[w' s1]|] eqn:E; inv H.
    apply wstep_scroll_attrs in E; destruct E as [Ef El]; simpl.
    rewrite Ef; intros F; auto.
  - destruct (nth_error (interrupters s) i) as [w|]; [|discriminate].
    destruct (wtimeout i w s) as [[w' s1]|] eqn:E; inv H.
    apply wtimeout_scroll_attrs in E; destruct E as (Ef & El & _); simpl.
    rewrite Ef, El; auto.
  - inv H; simpl; auto.
Qed.

Lemma reachable_session_has_lock (s : State) :
  reachable s -> session_has_lock s.
Proof.
  intros (s0 & ls & He).
  eapply (exec_invariant session_has_lock); eauto using step_session_has_lock.
  unfold session_has_lock; simpl; discriminate.
Qed.

(** [OutFilter] lets every record of the scroll level through. *)
Lemma outHdlr_accepts_scroll (record : LogRecord) (s : State) :
  levelno record = SCROLL -> filter outHdlr record s = true.
Proof.
  intros H; unfold filter; simpl; rewrite H; reflexivity.
Qed.

(** ** The output only grows, and only a scroll line clears the flag *)







(** What [format] does to a message that is a string. *)
Lemma format_string (record : LogRecord) (m : string) (s : State) :
  msg record = VStr m ->
  ScrollInterrupter.format record s =
  if scrollInterrupted s
  then Ok (set_msg record (VStr (m ++ ScrollInterrupter.trail))) s
  else Ok (set_msg record
             (VStr (ScrollInterrupter.lead ++ m ++ ScrollInterrupter.trail)))
          (set_scrollInterrupted true s).
Proof.
  intros H; unfold ScrollInterrupter.format; rewrite H.
  destruct (scrollInterrupted s); reflexivity.
Qed.

(** ** Threads in the list *)

Lemma nth_error_set_nth_same {A} (l : list A) (i : nat) (x y : A) :
  nth_error l i = Some y -> nth_error (set_nth i x l) i = Some x.
Proof.
  revert i; induction l as [|a l IH]; intros [|i]; simpl; try discriminate; auto.
Qed.

Lemma nth_error_set_nth_other {A} (l : list A) (i j : nat) (x : A) :
  i <> j -> nth_error (set_nth i x l) j = nth_error l j.
Proof.
  revert i j; induction l as [|a l IH]; intros [|i] [|j] H; simpl;
    try reflexivity; try congruence.
  apply IH; congruence.
Qed.

(** ** While the scroll lock is held the flag stays true *)



(** ** A thread that has ended stays so *)

Lemma wstep_interrupters (i : nat) (w w' : Interrupter) (s s' : State) :
  wstep i w s = Some (w', s') -> interrupters s' = interrupters s.
Proof.
  unfold wstep, die; unfold_calls; intros H.
  break_all; inv H; reflexivity.
Qed.

Lemma wtimeout_interrupters (i : nat) (w w' : Interrupter) (s s' : State) :
  wtimeout i w s = Some (w', s') -> interrupters s' = interrupters s.
Proof.
  unfold wtimeout; unfold_calls; intros H.
  break_all; inv H; reflexivity.
Qed.

Lemma handle_interrupters (h : Handler) (record : LogRecord) (s s' : State) :
  after (handle h record s) = Some s' -> interrupters s' = interrupters s.
Proof.
  unfold after; unfold_calls; intros H.
  break_all; inv H; reflexivity.
Qed.

Lemma scrollEnd_interrupters (s s' : State) :
  after (scrollEnd s) = Some s' -> interrupters s' = interrupters s.
Proof.
  unfold after; unfold_calls; intros H.
  break_all; inv H; reflexivity.
Qed.

Lemma step_keeps_dead (l : label) (s s' : State) (i : nat) (w : Interrupter) :
  step l s = Some s' ->
  nth_error (interrupters s) i = Some w -> pc w = Dead ->
  nth_error (interrupters s') i = Some w.
Proof.
  destruct l; simpl; intros H Hn Hp.
  - apply handle_interrupters in H; rewrite H; assumption.
  - inv H; assumption.
  - apply scrollEnd_interrupters in H; rewrite H; assumption.
  - inv H; assumption.
  - destruct (nth_error (interrupters s) i0) as [w0|] eqn:E0; [|discriminate].
    destruct (wstep i0 w0 s) as [[w' s1]|] eqn:E; inv H.
    pose proof (wstep_interrupters _ _ _ _ _ E) as Hi; simpl; rewrite Hi.
    destruct (Nat.eq_dec i0 i) as [->|Hne].
    + rewrite Hn in E0; inv E0.
      unfold wstep in E; rewrite Hp in E; discriminate.
    + rewrite nth_error_set_nth_other; assumption.
  - destruct (nth_error (interrupters s) i0) as [w0|] eqn:E0; [|discriminate].
    destruct (wtimeout i0 w0 s) as [[w' s1]|] eqn:E; inv H.
    pose proof (wtimeout_interrupters _ _ _ _ _ E) as Hi; simpl; rewrite Hi.
    destruct (Nat.eq_dec i0 i) as [->|Hne].
    + rewrite Hn in E0; inv E0.
      unfold wtimeout in E; rewrite Hp in E; discriminate.
    + rewrite nth_error_set_nth_other; assumption.
  - inv H; assumption.
Qed.

Lemma exec_keeps_dead (ls : list label) (s s' : State) (i : nat) (w : Interrupter) :
  exec ls s = Some s' ->
  nth_error (interrupters s) i = Some w -> pc w = Dead ->
  nth_error (interrupters s') i = Some w.
Proof.
  revert s; induction ls as [|l ls IH]; simpl; intros s H Hn Hp.
  - inv H; assumption.
  - destruct (step l s) as [s1|] eqn:E; [|discriminate].
    eapply IH; eauto using step_keeps_dead.
Qed.

Lemma dead_cannot_move (s : State) (i : nat) (w : Interrupter) :
  nth_error (interrupters s) i = Some w -> pc w = Dead ->
  step (LWorker i) s = None /\ step (LTimeout i) s = None.
Proof.
  intros Hn Hp; simpl; rewrite Hn; unfold wstep, wtimeout; rewrite Hp.
  split; reflexivity.
Qed.

(** An exception leaves [ScrollInterrupter.handle] before anything has
    changed. *)
Lemma handle_raise_state (record : LogRecord) (s s1 : State) (e : exn) :
  ScrollInterrupter.handle record s = Raise e s1 -> s1 = s.
Proof.
  unfold_calls; intros H; break_all; inv H; simpl in *;
    try reflexivity; congruence.
Qed.

Lemma run_except_interrupters (e : exn) (s : State) :
  interrupters (ScrollInterrupter.run_except e s) = interrupters s.
Proof. destruct e; reflexivity. Qed.

(** ** Who has the mutex of the pending monitor *)



(** ** Time passing *)

Lemma set_now_eta (s : State) : set_now (now s) s = s.
Proof. destruct s; reflexivity. Qed.

Lemma exec_ticks (n : nat) (s : State) (t : Z) :
  exec (ticks n) (set_now t s) = Some (set_now (t + Z.of_nat n) s).
Proof.
  revert t; induction n as [|n IH]; intros t.
  - simpl; rewrite Z.add_0_r; reflexivity.
  - change (exec (ticks (S n)) (set_now t s))
      with (exec (ticks n) (set_now (t + 1) s)).
    rewrite IH; do 2 f_equal; lia.
Qed.

(** ** The calls among other threads *)

Lemma RLock_taken (me : nat) (l : Call.RLock) :
  Call.held_by_other me l = true -> Call.RLock_acquire me l = None.
Proof.
  destruct l as [|owner again]; simpl; [discriminate|].
  destruct (Nat.eqb owner me); [discriminate|reflexivity].
Qed.

(** A lock that no other thread holds is taken, and is afterwards as
    it was. *)
Lemma RLock_round_trip (me : nat) (l : Call.RLock) :
  Call.held_by_other me l = false ->
  exists l1, Call.RLock_acquire me l = Some l1 /\
             Call.RLock_release me l1 = Some l.
Proof.
  destruct l as [|owner again]; simpl.
  - intros _; eexists; split; [reflexivity|].
    simpl; rewrite Nat.eqb_refl; reflexivity.
  - destruct (Nat.eqb owner me) eqn:E; [|discriminate].
    apply Nat.eqb_eq in E; subst owner.
    intros _; eexists; split; [reflexivity|].
    simpl; rewrite Nat.eqb_refl; reflexivity.
Qed.

Lemma held_by_other_cases (me : nat) (l : Call.RLock) :
  (Call.held_by_other me l = true <->
   exists owner again, l = Call.Held owner again /\ owner <> me) /\
  (Call.held_by_other me l = false <->
   l = Call.Free \/ exists again, l = Call.Held me again).
Proof.
  destruct l as [|owner again]; simpl.
  - split; split; auto; try discriminate.
    intros (? & ? & ? & _); discriminate.
  - destruct (Nat.eqb owner me) eqn:E; simpl.
    + apply Nat.eqb_eq in E; subst owner.
      split; split; try discriminate; eauto.
      intros (o & a & H & Hne); inv H; congruence.
    + apply Nat.eqb_neq in E.
      split; split; try discriminate; eauto.
      intros [H|(a & H)]; [discriminate|inv H; congruence].
Qed.

(** With the lock of the handler not held by another thread and a
    console that takes the write, the calls of [Call] are [handle],
    [ScrollInterrupter.handle] and [wstep], and the lock is afterwards
    as it was. *)
Lemma emitSynchronized_undisturbed (env : Call.Env) (h : Handler)
    (record : LogRecord) (s : State) (l : Call.RLock) :
  Call.held_by_other (Call.me env) l = false ->
  Call.write_raises env h = None ->
  Call.emitSynchronized env h record s l
  = Call.Returns tt (emitSynchronized h record s) l.
Proof.
  intros Hl Hw; unfold Call.emitSynchronized, Call.finally_release, Call.emit.
  destruct (RLock_round_trip _ _ Hl) as (l1 & Ha & Hr).
  rewrite Ha, Hr, Hw; reflexivity.
Qed.

Lemma handle_undisturbed (env : Call.Env) (h : Handler) (record : LogRecord)
    (s : State) (l : Call.RLock) :
  Call.held_by_other (Call.me env) l = false ->
  Call.write_raises env h = None ->
  Call.handle env h record s l
  = Call.waiting_at Call.PendingMonitor s l (handle h record s).
Proof.
  intros Hl Hw; unfold Call.handle, handle.
  destruct (filter h record s); [|reflexivity].
  destruct (levelno record =? SCROLL).
  - unfold scrollLock_acquire.
    destruct (scrollLock s) as [| |[|]]; try reflexivity.
    rewrite emitSynchronized_undisturbed by assumption.
    reflexivity.
  - destruct (scrollFlag s).
    + unfold Call.queueScrollInterrupt.
      destruct (queueScrollInterrupt h record s); reflexivity.
    + rewrite emitSynchronized_undisturbed by assumption; reflexivity.
Qed.

Lemma interrupter_handle_undisturbed (env : Call.Env) (record : LogRecord)
    (s : State) (l : Call.RLock) :
  Call.held_by_other (Call.me env) l = false ->
  (forall h, Call.write_raises env h = None) ->
  Call.interrupter_handle env record s l
  = Call.waiting_at Call.ScrollLock s l (ScrollInterrupter.handle record s).
Proof.
  intros Hl Hw.
  unfold Call.interrupter_handle, Call.interrupter_emit, Call.emit,
    Call.finally_release, ScrollInterrupter.handle, ScrollInterrupter.emit,
    try_finally, Call.waiting_at, emit.
  destruct (scrollableHandler record) as [h|]; [|reflexivity].
  destruct (RLock_round_trip _ _ Hl) as (l1 & Ha & Hr); rewrite Ha.
  destruct (ScrollInterrupter.format record s) as [r s1|e s1|] eqn:F.
  - destruct (scrollableHandler r); rewrite ?Hw, Hr; reflexivity.
  - rewrite Hr; reflexivity.
  - unfold ScrollInterrupter.format in F.
    destruct (negb (scrollInterrupted s)), (msg record); discriminate.
Qed.

Lemma wstep_undisturbed (env : Call.Env) (i : nat) (w : Interrupter)
    (s : State) (l : Call.RLock) :
  Call.held_by_other (Call.me env) l = false ->
  (forall h, Call.write_raises env h = None) ->
  Call.wstep env i w s l
  = match wstep i w s with
    | Some r => Some (r, l)
    | None => None
    end.
Proof.
  intros Hl Hw; unfold Call.wstep, wstep.
  destruct (pc w) as [| | | | | |[|record rest]| | | |]; try reflexivity.
  rewrite interrupter_handle_undisturbed by assumption.
  destruct (ScrollInterrupter.handle record s); reflexivity.
Qed.

(** ** The scroll gate *)

(** C1. A record of the scroll level that the handler's filters let
    through, handled while the scroll flag is true: the scroll lock is
    then bound to a lock; if that lock is free, the call clears the
    interrupted flag, passes the record to [emit], leaves the lock free
    again and touches nothing else; if it is held, the call returns at
    once with the state as it was: no exception, no suspension. *)
Theorem scroll_record_gate (s : State) (h : Handler) (record : LogRecord) :
  reachable s ->
  scrollFlag s = true ->
  levelno record = SCROLL ->
  filter h record s = true ->
  (exists held, scrollLock s = LockObj held) /\
  (scrollLock s = LockObj false ->
     exists s', handle h record s = Ok true s' /\
       scrollInterrupted s' = false /\
       output s' = (output s ++ [Emitted h record])%list /\
       scrollLock s' = LockObj false /\
       pendingLogRecords s' = pendingLogRecords s /\
       pendingMonitor s' = pendingMonitor s /\
       notifiedMonitor s' = notifiedMonitor s /\
       interrupters s' = interrupters s) /\
  (scrollLock s = LockObj true -> handle h record s = Ok true s).
Proof.
  intros Hr Hf Hl Hacc.
  split; [apply reachable_session_has_lock; assumption|].
  unfold handle; rewrite Hacc.
  replace (levelno record =? SCROLL) with true by (symmetry; apply Z.eqb_eq; assumption).
  unfold_calls; split; intros E; rewrite E; simpl; [|reflexivity].
  eexists; split; [reflexivity|]; simpl; repeat split; reflexivity.
Qed.

Lemma scroll_record_gate_witness :
  reachable Scenario.s_scrolling /\
  handle outHdlr Scenario.scroll_line Scenario.s_scrolling
  = Ok true (write (Emitted outHdlr Scenario.scroll_line)
               (set_scrollInterrupted false Scenario.s_scrolling)).
Proof.
  split.
  - exists boot, [LScrollBegin]; by_eval.
  - destruct (scroll_record_gate Scenario.s_scrolling outHdlr Scenario.scroll_line)
      as (_ & Hfree & _).
    + exists boot, [LScrollBegin]; by_eval.
    + by_eval.
    + by_eval.
    + by_eval.
    + by_eval.
Defined.

(** ** The interrupt router *)

(** C3, as stated, fails. The handler of standard output is handed a
    record of the error level, which is no scroll line: [OutFilter]
    turns it away and the call returns with nothing queued, nobody
    notified and nothing written, whether the scroll flag is true or
    false. And a record the filters let through, handled outside a
    session on a console whose write raises, is not written: what the
    console gets is the traceback, on standard error. *)
Lemma error_record_not_routed :
  levelno Scenario.error_x <> SCROLL /\
  (scrollFlag Scenario.s_scrolling = true /\
   Call.handle Scenario.caller outHdlr Scenario.error_x Scenario.s_scrolling
     Call.Free
   = Call.Returns false Scenario.s_scrolling Call.Free /\
   handle outHdlr Scenario.error_x Scenario.s_scrolling
   = Ok false Scenario.s_scrolling /\
   pendingLogRecords Scenario.s_scrolling = [] /\
   notifiedMonitor Scenario.s_scrolling = false /\
   output Scenario.s_scrolling = []) /\
  (scrollFlag Scenario.s_init = false /\
   Call.handle Scenario.caller outHdlr Scenario.error_x Scenario.s_init
     Call.Free
   = Call.Returns false Scenario.s_init Call.Free /\
   handle outHdlr Scenario.error_x Scenario.s_init
   = Ok false Scenario.s_init /\
   output Scenario.s_init = []) /\
  (filter outHdlr Scenario.warning_a Scenario.s_init = true /\
   exists s',
     Call.handle Scenario.broken_pipe outHdlr Scenario.warning_a Scenario.s_init
       Call.Free
     = Call.Returns true s' Call.Free /\
     map console_text (output s') = [(Stderr, Scenario.traceback)]).
Proof.
  splits; try by_eval; try discriminate.
  exists (write (Reported Scenario.traceback) Scenario.s_init); split; by_eval.
Qed.

(** C3, amended. A record of another level than scroll; [l] is the
    lock of the handler. If the filters of the handler turn the record
    away, the call returns false and nothing has happened. If they let
    it through: with the scroll flag true the call needs the mutex of
    the pending monitor and no other lock; while the mutex is held the
    caller is suspended there, nothing done; when it is free the call
    returns with the record, its level and message as they were and its
    handler attached, at the end of the pending records, the longest
    sleeper of the monitor woken, the notified flag true, the mutex
    free again and nothing written. With the scroll flag false the call
    needs the lock of the handler; while another thread holds it the
    caller is suspended there, nothing done; otherwise the record is
    passed to [emit], which writes it on the stream of the handler, or,
    if the write raises, has the traceback printed on standard error;
    the lock of the handler is afterwards as it was and nothing else
    has changed. *)
Theorem non_scroll_record_routing (env : Call.Env) (s : State) (h : Handler)
    (record : LogRecord) (l : Call.RLock) :
  levelno record <> SCROLL ->
  (filter h record s = false ->
     Call.handle env h record s l = Call.Returns false s l) /\
  (filter h record s = true -> scrollFlag s = true ->
     (mlocked (pendingMonitor s) = true ->
        Call.handle env h record s l
        = Call.Suspended Call.PendingMonitor s l) /\
     (mlocked (pendingMonitor s) = false ->
        exists s' queued,
          Call.handle env h record s l = Call.Returns true s' l /\
          pendingLogRecords s' = (pendingLogRecords s ++ [queued])%list /\
          scrollableHandler queued = Some h /\
          levelno queued = levelno record /\
          msg queued = msg record /\
          waiters (pendingMonitor s') = tl (waiters (pendingMonitor s)) /\
          mlocked (pendingMonitor s') = false /\
          notifiedMonitor s' = true /\
          output s' = output s /\
          scrollFlag s' = true /\
          scrollLock s' = scrollLock s /\
          scrollInterrupted s' = scrollInterrupted s /\
          interrupters s' = interrupters s)) /\
  (filter h record s = true -> scrollFlag s = false ->
     (forall owner again,
        l = Call.Held owner again -> owner <> Call.me env ->
        Call.handle env h record s l
        = Call.Suspended (Call.HandlerLock h) s l) /\
     (l = Call.Free \/ (exists again, l = Call.Held (Call.me env) again) ->
        exists s',
          Call.handle env h record s l = Call.Returns true s' l /\
          output s' =
            (output s ++
             [match Call.write_raises env h with
              | None => Emitted h record
              | Some traceback => Reported traceback
              end])%list /\
          pendingLogRecords s' = pendingLogRecords s /\
          pendingMonitor s' = pendingMonitor s /\
          notifiedMonitor s' = notifiedMonitor s /\
          scrollFlag s' = false /\
          scrollLock s' = scrollLock s /\
          scrollInterrupted s' = scrollInterrupted s /\
          interrupters s' = interrupters s)).
Proof.
  intros Hl.
  unfold Call.handle.
  replace (levelno record =? SCROLL) with false
    by (symmetry; apply Z.eqb_neq; assumption).
  split; [intros Hacc; rewrite Hacc; reflexivity|].
  split; intros Hacc Hf; rewrite Hacc, Hf; split.
  - intros Hm.
    unfold Call.queueScrollInterrupt, queueScrollInterrupt,
      pendingMonitor_acquire.
    rewrite Hm; reflexivity.
  - intros Hm.
    unfold Call.queueScrollInterrupt, queueScrollInterrupt,
      pendingMonitor_acquire, pendingMonitor_notify, pendingMonitor_release.
    rewrite Hm; simpl.
    eexists; eexists; split; [reflexivity|]; simpl.
    splits; try reflexivity; assumption.
  - intros owner again -> Hne.
    unfold Call.emitSynchronized; simpl.
    apply Nat.eqb_neq in Hne; rewrite Hne; reflexivity.
  - intros Hfree.
    apply (proj2 (held_by_other_cases (Call.me env) l)) in Hfree.
    destruct (RLock_round_trip _ _ Hfree) as (l1 & Ha & Hr).
    unfold Call.emitSynchronized, Call.finally_release, Call.emit.
    rewrite Ha, Hr.
    eexists; split; [reflexivity|].
    destruct (Call.write_raises env h); simpl; splits; try reflexivity;
      assumption.
Qed.

Lemma non_scroll_record_routing_witness :
  Call.handle Scenario.caller outHdlr Scenario.error_x Scenario.s_scrolling
    Call.Free
  = Call.Returns false Scenario.s_scrolling Call.Free /\
  (exists s',
     Call.handle Scenario.caller outHdlr Scenario.warning_a Scenario.s_scrolling
       Call.Free
     = Call.Returns true s' Call.Free /\
     pendingLogRecords s'
     = [{| levelno := WARNING; msg := VStr "a";
           scrollableHandler := Some outHdlr |}] /\
     notifiedMonitor s' = true /\
     output s' = []) /\
  (exists s',
     Call.handle Scenario.caller outHdlr Scenario.warning_a Scenario.s_init
       Call.Free
     = Call.Returns true s' Call.Free /\
     map console_text (output s') = [(Stdout, "a" ++ nl)]) /\
  Call.handle Scenario.caller outHdlr Scenario.warning_a Scenario.s_init
    Scenario.taken
  = Call.Suspended (Call.HandlerLock outHdlr) Scenario.s_init Scenario.taken.
Proof.
  destruct (non_scroll_record_routing Scenario.caller Scenario.s_scrolling
              outHdlr Scenario.error_x Call.Free) as (Hrej & _);
    [discriminate|].
  destruct (non_scroll_record_routing Scenario.caller Scenario.s_scrolling
              outHdlr Scenario.warning_a Call.Free) as (_ & Hq & _);
    [discriminate|].
  destruct (non_scroll_record_routing Scenario.caller Scenario.s_init
              outHdlr Scenario.warning_a Call.Free) as (_ & _ & Hd);
    [discriminate|].
  destruct (non_scroll_record_routing Scenario.caller Scenario.s_init
              outHdlr Scenario.warning_a Scenario.taken) as (_ & _ & Hb);
    [discriminate|].
  split; [apply Hrej; by_eval|].
  split; [|split].
  - destruct (Hq ltac:(by_eval) ltac:(by_eval)) as (_ & Hfree).
    destruct (Hfree ltac:(by_eval))
      as (s' & queued & Hh & Hp & Hsh & Hlv & Hmsg & _ & _ & Hn & Ho & _).
    exists s'; split; [assumption|]; split; [|split; assumption].
    rewrite Hp; destruct queued as [lv m sh]; simpl in *.
    rewrite Hsh, Hlv, Hmsg; reflexivity.
  - destruct (Hd ltac:(by_eval) ltac:(by_eval)) as (_ & Hfree).
    destruct (Hfree (or_introl eq_refl)) as (s' & Hh & Ho & _).
    exists s'; split; [assumption|].
    rewrite Ho; reflexivity.
  - destruct (Hb ltac:(by_eval) ltac:(by_eval)) as (Hheld & _).
    apply (Hheld 2%nat 0%nat eq_refl); discriminate.
Defined.

(** ** Session end *)

(** C7, as stated, fails: right after [init()] no session is on, and
    the first [scrollEnd()] changes the state (it removes the attribute
    [scrollLock]); the second one in a row does not behave like the
    first, it raises [AttributeError]. *)
Lemma scrollEnd_twice_raises :
  scrollFlag Scenario.s_init = false /\
  exists s1, scrollEnd Scenario.s_init = Ok tt s1 /\
    s1 <> Scenario.s_init /\
    scrollEnd s1 = Raise attr_missing s1.
Proof.
  split; [by_eval|].
  exists (set_scrollLock Deleted Scenario.s_init).
  split; [by_eval|]; split; [|by_eval].
  intros H; apply (f_equal scrollLock) in H; vm_compute in H; discriminate.
Qed.

(** C7, amended. With no session on, [scrollEnd()] succeeds exactly
    when the attribute [scrollLock] is still bound, and then only
    removes it; when the attribute is gone it raises [AttributeError]
    and leaves the state as it was. After a [scrollEnd()] that
    succeeded, the next one raises. *)
Theorem scrollEnd_without_session (s : State) :
  scrollFlag s = false ->
  (scrollLock s <> Deleted -> scrollEnd s = Ok tt (set_scrollLock Deleted s)) /\
  (scrollLock s = Deleted -> scrollEnd s = Raise attr_missing s) /\
  (forall s1, scrollEnd s = Ok tt s1 -> scrollEnd s1 = Raise attr_missing s1).
Proof.
  intros Hf; destruct s; simpl in *; subst; unfold scrollEnd; simpl.
  repeat split.
  - intros Hn; destruct scrollLock0; try congruence; reflexivity.
  - intros Hd; subst; reflexivity.
  - intros s1 H; destruct scrollLock0; inv H; reflexivity.
Qed.

Lemma scrollEnd_without_session_witness :
  scrollFlag Scenario.s_init = false /\
  scrollEnd Scenario.s_init = Ok tt (set_scrollLock Deleted Scenario.s_init).
Proof.
  split; [by_eval|].
  destruct (scrollEnd_without_session Scenario.s_init ltac:(by_eval)) as (H & _).
  apply H; vm_compute; discriminate.
Defined.

(** ** Set-up *)

(** [init()] checks nothing: every call binds the class attributes
    anew (flag off, interrupted flag on, lock [None], a fresh monitor,
    an empty list of pending records), registers its two handlers once
    more and starts one more interrupter thread beside those already
    there; after [n] calls [n] more threads exist. *)
Lemma init_never_refuses (s : State) :
  interrupters (init s) = (interrupters s ++ [started])%list /\
  logger_handlers (init s) = (logger_handlers s ++ [outHdlr; errHdlr])%list /\
  pendingLogRecords (init s) = [] /\
  pendingMonitor (init s) = {| mlocked := false; waiters := [] |} /\
  scrollFlag (init s) = false /\
  scrollLock (init s) = IsNone /\
  forall n : nat,
    List.length (interrupters (Nat.iter n init s))
    = (List.length (interrupters s) + n)%nat.
Proof.
  splits; try reflexivity.
  induction n as [|n IH]; simpl; [lia|].
  rewrite length_app, IH; simpl; lia.
Qed.

(** C8. The claim does not hold of the code, which the note in
    [init] knows ("interrupter can throw an exception if its
    instantiated twice" is still to be done, and the thread is meant to
    be a singleton): a second [init()] is not refused. After it two
    interrupter threads have been started, both ready to run, on one
    list of pending records, and the two handlers are registered twice. *)
Theorem init_twice_accepted :
  interrupters (init (init boot)) = [started; started] /\
  logger_handlers (init (init boot)) = [outHdlr; errHdlr; outHdlr; errHdlr] /\
  (exists s, step (LWorker 0) (init (init boot)) = Some s) /\
  (exists s, step (LWorker 1) (init (init boot)) = Some s).
Proof.
  splits; try by_eval.
  - exists (Scenario.run_from (init (init boot)) [LWorker 0]); by_eval.
  - exists (Scenario.run_from (init (init boot)) [LWorker 1]); by_eval.
Qed.

(** ** The interrupted flag after set-up *)



(** ** Padding within an episode *)




(** ** Exceptions in the interrupter *)

(** What the write of a record raises does not leave
    [StreamHandler.emit]. An interrupter that handles a record with a
    string for a message, on a handler whose lock no other thread holds
    and whose stream raises at the write: [format] has run, so the
    interrupted flag is true; the record is not written, the traceback
    goes to standard error; the lock of the handler is as it was; and
    the interrupter goes on with the rest of its batch. *)
Theorem write_error_stays_in_emit (env : Call.Env) (s : State) (i : nat)
    (w : Interrupter) (record : LogRecord) (rest : list LogRecord)
    (h : Handler) (m traceback : string) (l : Call.RLock) :
  pc w = Emitting (record :: rest) ->
  scrollableHandler record = Some h ->
  msg record = VStr m ->
  l = Call.Free \/ (exists again, l = Call.Held (Call.me env) again) ->
  Call.write_raises env h = Some traceback ->
  exists s1,
    Call.wstep env i w s l = Some (at_pc w (Emitting rest), s1, l) /\
    output s1 = (output s ++ [Reported traceback])%list /\
    console_text (Reported traceback) = (Stderr, traceback) /\
    scrollInterrupted s1 = true /\
    scrollLock s1 = scrollLock s /\
    pendingMonitor s1 = pendingMonitor s /\
    pendingLogRecords s1 = pendingLogRecords s.
Proof.
  intros Hp Hh Hm Hl Hw.
  apply (proj2 (held_by_other_cases (Call.me env) l)) in Hl.
  destruct (RLock_round_trip _ _ Hl) as (l1 & Ha & Hr).
  unfold Call.wstep, Call.interrupter_handle, Call.interrupter_emit,
    ScrollInterrupter.format, Call.emit.
  rewrite Hp, Hh, Ha, Hm.
  destruct (scrollInterrupted s) eqn:Ei; simpl; rewrite Hh, Hw; simpl;
    rewrite Hr; eexists; splits; try reflexivity; simpl; assumption.
Qed.

Lemma write_error_stays_in_emit_witness :
  exists s1,
    Call.wstep Scenario.interrupter_on_broken_pipe 0
      {| pc := Emitting [{| levelno := WARNING; msg := VStr "a";
                            scrollableHandler := Some outHdlr |}];
         hadQuickWait := false |}
      Scenario.s_draining Call.Free
    = Some ({| pc := Emitting []; hadQuickWait := false |}, s1, Call.Free) /\
    map console_text (output s1) = [(Stderr, Scenario.traceback)].
Proof.
  destruct (write_error_stays_in_emit Scenario.interrupter_on_broken_pipe
              Scenario.s_draining 0
              {| pc := Emitting [{| levelno := WARNING; msg := VStr "a";
                                    scrollableHandler := Some outHdlr |}];
                 hadQuickWait := false |}
              {| levelno := WARNING; msg := VStr "a";
                 scrollableHandler := Some outHdlr |}
              [] outHdlr "a" Scenario.traceback Call.Free
              eq_refl eq_refl eq_refl (or_introl eq_refl) eq_refl)
    as (s1 & Hs & Ho & _).
  exists s1; split; [exact Hs|].
  rewrite Ho; by_eval.
Defined.

(** An exception that leaves [ScrollInterrupter.handle] (the
    [TypeError] of [format] on a message that is no string, the
    [AttributeError] of a record without its handler) is not caught at
    the record: it ends [waitLoop]. [run] passes over [AttributeError],
    [NameError] and [SystemExit] in silence and reports any other
    exception with [print], on standard output; then the thread has
    ended, and it stays ended whatever happens afterwards. *)
Lemma emission_error_ends_interrupter (s s1 : State) (i : nat)
    (w : Interrupter) (record : LogRecord) (rest : list LogRecord) (e : exn) :
  nth_error (interrupters s) i = Some w ->
  pc w = Emitting (record :: rest) ->
  ScrollInterrupter.handle record s = Raise e s1 ->
  exists s', step (LWorker i) s = Some s' /\
    output s' =
      (output s ++
       match e with
       | AttributeError _ | NameError _ | SystemExit _ => []
       | _ => [Printed ("Error in ScrollInterrupter: " ++ str_exn e)]
       end)%list /\
    (forall o, In o (skipn (List.length (output s)) (output s')) ->
               fst (console_text o) = Stdout) /\
    forall (ls : list label) (s2 : State),
      exec ls s' = Some s2 ->
      nth_error (interrupters s2) i = Some (at_pc w Dead) /\
      step (LWorker i) s2 = None /\ step (LTimeout i) s2 = None.
Proof.
  intros Hn Hp Hr.
  pose proof (handle_raise_state _ _ _ _ Hr) as ->.
  assert (Hs : step (LWorker i) s =
               Some (set_interrupters
                       (set_nth i (at_pc w Dead)
                          (interrupters (ScrollInterrupter.run_except e s)))
                       (ScrollInterrupter.run_except e s))).
  { simpl; rewrite Hn; unfold wstep; rewrite Hp, Hr; reflexivity. }
  eexists; split; [exact Hs|].
  assert (Hout : output (ScrollInterrupter.run_except e s) =
                 (output s ++
                  match e with
                  | AttributeError _ | NameError _ | SystemExit _ => []
                  | _ => [Printed ("Error in ScrollInterrupter: " ++ str_exn e)]
                  end)%list).
  { destruct e; simpl; rewrite ?app_nil_r; reflexivity. }
  split; [exact Hout|]; split.
  - simpl; rewrite Hout.
    rewrite skipn_app, skipn_all, Nat.sub_diag; simpl.
    intros o Hin; destruct e; simpl in Hin; try contradiction;
      destruct Hin as [<-|[]]; reflexivity.
  - intros ls s2 He.
    assert (Hd : nth_error
                   (interrupters
                      (set_interrupters
                         (set_nth i (at_pc w Dead)
                            (interrupters (ScrollInterrupter.run_except e s)))
                         (ScrollInterrupter.run_except e s))) i
                 = Some (at_pc w Dead)).
    { simpl; apply nth_error_set_nth_same with (y := w).
      rewrite run_except_interrupters; assumption. }
    pose proof (exec_keeps_dead _ _ _ _ _ He Hd eq_refl) as Hd2.
    split; [assumption|].
    apply (dead_cannot_move s2 i (at_pc w Dead)); [assumption|reflexivity].
Qed.

(** C4. The claim does not hold of the code, although the docstring of
    the class calls the interrupter a permanent thread and that of
    [run] has it do the work and shut down cleanly under all
    circumstances. During a session [info(5)] and a warning are logged;
    the interrupter wakes and copies both records. On the first one
    [format] raises [TypeError], before [StreamHandler.emit] is reached
    and outside any [try] of the loop: the exception ends [waitLoop],
    [run] prints it on standard output (nothing goes to standard
    error), and the thread has ended with no shutdown asked for. The
    warning was in its batch: it is printed nowhere and is no longer
    pending. The thread has ended with the scroll lock and the mutex of
    the pending monitor held, and cannot move again: from then on a
    scroll line is dropped and a caller with a warning is suspended. It
    ends in the same way whether the console takes a write or raises. *)
Theorem emission_error_kills_interrupter :
  exec Scenario.bad_batch (init boot) = Some Scenario.s_bad_batch /\
  interrupters Scenario.s_bad_batch
  = [{| pc := Emitting [{| levelno := INFO; msg := VOther "int" "5";
                           scrollableHandler := Some outHdlr |};
                        {| levelno := WARNING; msg := VStr "b";
                           scrollableHandler := Some outHdlr |}];
        hadQuickWait := false |}] /\
  shutdown Scenario.s_bad_batch = false /\
  output Scenario.s_bad_batch = [] /\
  (exists s, step (LWorker 0) Scenario.s_bad_batch = Some s /\
     interrupters s = [{| pc := Dead; hadQuickWait := false |}] /\
     shutdown s = false /\
     map console_text (output s) =
       [(Stdout,
         "Error in ScrollInterrupter: unsupported operand type(s) for +: 'int' and 'str'"
         ++ nl)] /\
     pendingLogRecords s = [] /\
     scrollLock s = LockObj true /\
     mlocked (pendingMonitor s) = true /\
     step (LWorker 0) s = None /\ step (LTimeout 0) s = None /\
     handle outHdlr Scenario.scroll_line s = Ok true s /\
     handle outHdlr Scenario.warning_c s = Blocks) /\
  (forall env : Call.Env,
     exists s,
       Call.wstep env 0
         {| pc := Emitting [{| levelno := INFO; msg := VOther "int" "5";
                               scrollableHandler := Some outHdlr |};
                            {| levelno := WARNING; msg := VStr "b";
                               scrollableHandler := Some outHdlr |}];
            hadQuickWait := false |}
         Scenario.s_bad_batch Call.Free
       = Some ({| pc := Dead; hadQuickWait := false |}, s, Call.Free) /\
       output s =
         [Printed
            "Error in ScrollInterrupter: unsupported operand type(s) for +: 'int' and 'str'"]).
Proof.
  splits; try by_eval.
  - exists Scenario.s_dead; splits; by_eval.
  - intros env.
    assert (Hi : scrollInterrupted Scenario.s_bad_batch = true) by by_eval.
    unfold Call.wstep, Call.interrupter_handle, Call.interrupter_emit,
      ScrollInterrupter.format.
    cbv beta iota delta [pc scrollableHandler msg Call.RLock_acquire].
    rewrite Hi.
    cbv beta iota delta [negb die at_pc hadQuickWait Call.waiting_at
                         Call.finally_release Call.RLock_release].
    rewrite Nat.eqb_refl.
    eexists; split; [reflexivity|by_eval].
Qed.

(** ** What a caller waits for *)




(** ** Records left in the queue *)

(** C5. The claim does not hold of the code, as the note above
    [waitLoop] says ("you can definitely have a case where you were
    notified and weren't wait()ing"). One warning has been printed and
    its timed wait has run out; the interrupter has given up the monitor
    (line 219). A second warning is logged now, with the scroll flag
    true: it is queued, but nobody sleeps in the monitor, so the
    [notify()] is lost. The interrupter gives up the scroll lock, goes
    round the loop and to sleep in [wait()]. From then on, however much
    time passes, it cannot move, and the second warning stays in the
    queue, unprinted. *)
Theorem queued_record_left_behind :
  exec Scenario.episode_ending (init boot) = Some Scenario.s_episode_ending /\
  Scenario.worker0 Scenario.s_episode_ending = ReleaseScroll /\
  scrollFlag Scenario.s_episode_ending = true /\
  exec (LHandle outHdlr Scenario.warning_b :: Scenario.back_to_sleep)
       Scenario.s_episode_ending = Some Scenario.s_lost /\
  Scenario.worker0 Scenario.s_lost = IdleWaiting /\
  forall n : nat, exists s,
    exec (ticks n) Scenario.s_lost = Some s /\
    step (LWorker 0) s = None /\
    step (LTimeout 0) s = None /\
    pendingLogRecords s = [set_scrollableHandler Scenario.warning_b outHdlr] /\
    map console_text (output s)
    = [(Stdout, "a" ++ ScrollInterrupter.trail ++ nl)].
Proof.
  splits; try by_eval.
  intros n.
  exists (set_now (now Scenario.s_lost + Z.of_nat n) Scenario.s_lost).
  split.
  - rewrite <- (set_now_eta Scenario.s_lost) at 1; apply exec_ticks.
  - generalize (now Scenario.s_lost + Z.of_nat n); intros t.
    splits; by_eval.
Qed.

(** ** The length of an episode *)

(** What the interrupter does when its timed wait has returned (lines
    210-221): it goes by the notified flag alone. Flag true: it clears
    the flag and goes round the loop with [hadQuickWait], keeping the
    scroll lock and the monitor. Flag false: it gives up the monitor,
    and with its next step the scroll lock. *)
Lemma grace_decision (s : State) (i : nat) (w : Interrupter) :
  nth_error (interrupters s) i = Some w ->
  pc w = AfterGrace ->
  mlocked (pendingMonitor s) = true ->
  exists s', step (LWorker i) s = Some s' /\
    scrollLock s' = scrollLock s /\
    if notifiedMonitor s
    then nth_error (interrupters s') i
         = Some {| pc := LoopHead; hadQuickWait := true |} /\
         mlocked (pendingMonitor s') = true /\
         notifiedMonitor s' = false
    else nth_error (interrupters s') i = Some (at_pc w ReleaseScroll) /\
         mlocked (pendingMonitor s') = false.
Proof.
  intros Hn Hp Hm; simpl; rewrite Hn; unfold wstep; rewrite Hp.
  unfold_calls; rewrite Hm.
  destruct (notifiedMonitor s) eqn:F; simpl;
    eexists; (split; [reflexivity|]); simpl; splits;
    eauto using nth_error_set_nth_same.
Qed.

(** C2. The second half of the claim does not hold of the code,
    against the comment at lines 207-209 (the notified flag is taken to
    say that a [notify()] came during the timed wait). Warning a wakes
    the interrupter; warning b is logged at time 0, after the
    interrupter has left [wait()] and before it takes the monitor: b
    is printed in the same batch, but leaves the notified flag true.
    The timed wait runs out at time 5 with no new record; the
    interrupter finds the flag true and waits again instead of letting
    go. Warning c is logged at time 7, more than the 5 units after b:
    it is printed in the same episode, the scroll lock being held in
    every state from the printing of b to the printing of c. *)
Theorem stale_flag_extends_episode :
  exec Scenario.woken (init boot) = Some Scenario.s_woken /\
  now Scenario.s_woken = 0 /\
  exec (LHandle outHdlr Scenario.warning_b :: Scenario.print_two)
       Scenario.s_woken = Some Scenario.s_b_printed /\
  now Scenario.s_b_printed = 0 /\
  exec (Scenario.quiet_grace ++ ticks 2) Scenario.s_b_printed
  = Some Scenario.s_c_arrives /\
  now Scenario.s_c_arrives = 7 /\
  SCROLL_INTERRUPT_WAIT Scenario.s_c_arrives = 5 /\
  exec (LHandle outHdlr Scenario.warning_c :: Scenario.print_next)
       Scenario.s_c_arrives = Some Scenario.s_c_printed /\
  map console_text (output Scenario.s_c_printed)
  = [(Stdout, "a" ++ ScrollInterrupter.trail ++ nl);
     (Stdout, "b" ++ ScrollInterrupter.trail ++ nl);
     (Stdout, "c" ++ ScrollInterrupter.trail ++ nl)] /\
  forallb scroll_held
    (states_along
       (Scenario.quiet_grace ++ ticks 2
        ++ LHandle outHdlr Scenario.warning_c :: Scenario.print_next)
       Scenario.s_b_printed) = true.
Proof. splits; by_eval. Qed.

(** * Further properties of the module *)

(** ** When a call of [handle] is suspended *)

(** A call of [ScrollableHandler.handle] never waits for the scroll
    lock. It waits for the mutex of the pending monitor exactly when the
    record passes the filters, is no scroll line, the scroll flag is
    true and the mutex is held; it has done nothing by then. It waits
    for the lock of a handler, its own, exactly when the record passes
    the filters, another thread holds that lock, and the record is
    either no scroll line with the scroll flag false, the call having
    done nothing by then, or a scroll line with the scroll lock free,
    which the call holds while it waits, the interrupted flag cleared.
    A caller that waits has not touched the lock of the handler. *)
Theorem handle_suspension_points (env : Call.Env) (h : Handler)
    (record : LogRecord) (s : State) (l : Call.RLock) :
  (forall s' l',
     Call.handle env h record s l <> Call.Suspended Call.ScrollLock s' l') /\
  (forall s' l',
     Call.handle env h record s l = Call.Suspended Call.PendingMonitor s' l' <->
     s' = s /\ l' = l /\ filter h record s = true /\
     levelno record <> SCROLL /\
     scrollFlag s = true /\ mlocked (pendingMonitor s) = true) /\
  (forall h' s' l',
     Call.handle env h record s l = Call.Suspended (Call.HandlerLock h') s' l' ->
     h' = h /\ l' = l /\ filter h record s = true /\
     (exists owner again, l = Call.Held owner again /\ owner <> Call.me env) /\
     ((levelno record <> SCROLL /\ scrollFlag s = false /\ s' = s) \/
      (levelno record = SCROLL /\ scrollLock s = LockObj false /\
       scrollLock s' = LockObj true /\ scrollInterrupted s' = false /\
       output s' = output s /\
       pendingLogRecords s' = pendingLogRecords s /\
       pendingMonitor s' = pendingMonitor s))) /\
  (forall owner again,
     l = Call.Held owner again -> owner <> Call.me env ->
     filter h record s = true ->
     (levelno record <> SCROLL /\ scrollFlag s = false) \/
     (levelno record = SCROLL /\ scrollLock s = LockObj false) ->
     exists s', Call.handle env h record s l
                = Call.Suspended (Call.HandlerLock h) s' l).
Proof.
  pose proof (held_by_other_cases (Call.me env) l) as [Hother _].
  pose proof (RLock_taken (Call.me env) l) as Htaken.
  pose proof (RLock_round_trip (Call.me env) l) as Htrip.
  unfold Call.handle, Call.queueScrollInterrupt, Call.emitSynchronized,
    Call.finally_release, Call.emit, Call.waiting_at; unfold_calls.
  destruct (Call.held_by_other (Call.me env) l) eqn:Eh;
    [rewrite (Htaken eq_refl)
    |destruct (Htrip eq_refl) as (l1 & Ha & Hr); rewrite Ha, Hr];
  destruct (filter h record s);
    destruct (levelno record =? SCROLL) eqn:El;
    destruct (scrollLock s) as [| |[|]] eqn:Elock;
    destruct (scrollFlag s);
    destruct (mlocked (pendingMonitor s));
    destruct (Call.write_raises env h); simpl;
    first [apply Z.eqb_eq in El | apply Z.eqb_neq in El].
  all: split; [intros s' l'; discriminate|].
  all: split;
    [intros s' l'; split;
       [intros E; try discriminate; inv E; splits; auto
       |intros (-> & -> & ? & ? & ? & ?); try discriminate; try congruence;
        reflexivity]|].
  all: split;
    [intros h' s' l' E; try discriminate; inv E; simpl;
     splits; auto; try (apply Hother; reflexivity);
     solve [left; splits; auto | right; splits; simpl; auto]
    |intros owner again Hheld Hne Hf [[? ?]|[? ?]];
     try discriminate; try congruence; eauto;
     exfalso; assert (false = true) by (apply Hother; eauto);
     discriminate].
Qed.

(** While thread 2 is inside a call on the handler of standard output:
    a warning outside a session waits for the handler, nothing done; a
    scroll line of a session waits for it with the scroll lock taken; a
    warning of a session does not wait for it, it is queued. *)
Lemma busy_handler_suspends_caller :
  Call.handle Scenario.caller outHdlr Scenario.warning_a Scenario.s_init
    Scenario.taken
  = Call.Suspended (Call.HandlerLock outHdlr) Scenario.s_init Scenario.taken /\
  (exists s',
     Call.handle Scenario.caller outHdlr Scenario.scroll_line
       Scenario.s_scrolling Scenario.taken
     = Call.Suspended (Call.HandlerLock outHdlr) s' Scenario.taken /\
     scrollLock s' = LockObj true /\ output s' = []) /\
  (exists s',
     Call.handle Scenario.caller outHdlr Scenario.warning_a
       Scenario.s_scrolling Scenario.taken
     = Call.Returns true s' Scenario.taken /\
     pendingLogRecords s'
     = [{| levelno := WARNING; msg := VStr "a";
           scrollableHandler := Some outHdlr |}]).
Proof.
  splits; [by_eval | | ].
  - exists (set_scrollInterrupted false
              (set_scrollLock (LockObj true) Scenario.s_scrolling)).
    splits; by_eval.
  - exists (Scenario.run_from Scenario.s_scrolling
              [LHandle outHdlr Scenario.warning_a]).
    splits; by_eval.
Qed.

(** ** Scroll lines outside a session *)

(** A scroll line handled when no session has bound the scroll lock
    raises [AttributeError] and changes nothing: right after [init()]
    the lock is [None], after [scrollEnd()] the attribute is gone. *)
Theorem scroll_line_without_session (record : LogRecord) :
  levelno record = SCROLL ->
  (forall s0,
     handle outHdlr record (init s0)
     = Raise (none_has_no "acquire") (init s0)) /\
  (forall s s1, after (scrollEnd s) = Some s1 ->
     handle outHdlr record s1 = Raise attr_missing s1).
Proof.
  intros Hl; split.
  - intros s0; unfold handle.
    rewrite outHdlr_accepts_scroll by assumption.
    rewrite Hl; reflexivity.
  - intros s s1 He; unfold handle.
    rewrite outHdlr_accepts_scroll by assumption.
    rewrite Hl; simpl.
    assert (Hd : scrollLock s1 = Deleted).
    { unfold after, scrollEnd in He.
      destruct (scrollLock (set_scrollFlag false s)) eqn:E; inv He;
        simpl in *; auto. }
    unfold scrollLock_acquire; rewrite Hd; reflexivity.
Qed.

Lemma scroll_line_without_session_witness :
  handle outHdlr Scenario.scroll_line (init boot)
  = Raise (none_has_no "acquire") (init boot).
Proof.
  destruct (scroll_line_without_session Scenario.scroll_line ltac:(by_eval))
    as [H _].
  apply H.
Defined.

(** ** Bursts of scroll lines *)

Lemma exec_cons (l : label) (ls : list label) (s : State) :
  exec (l :: ls) s =
  match step l s with Some s1 => exec ls s1 | None => None end.
Proof. reflexivity. Qed.

Lemma filter_same_mode (h : Handler) (record : LogRecord) (s s' : State) :
  DEBUG_MODE s' = DEBUG_MODE s -> filter h record s' = filter h record s.
Proof.
  unfold filter; intros H.
  induction (h_filters h) as [|f fs IH]; simpl; [reflexivity|].
  rewrite IH; destruct f; simpl; rewrite ?H; reflexivity.
Qed.

(** With the scroll lock free and nobody else moving, every scroll line
    of a burst is written, in order, and the lock is free again after
    each. *)
Theorem scroll_burst_all_written (h : Handler) (records : list LogRecord)
    (s : State) :
  scrollLock s = LockObj false ->
  (forall record, In record records ->
     levelno record = SCROLL /\ filter h record s = true) ->
  exists s', exec (map (LHandle h) records) s = Some s' /\
    output s' = (output s ++ map (Emitted h) records)%list /\
    scrollLock s' = LockObj false /\
    pendingLogRecords s' = pendingLogRecords s /\
    (records <> [] -> scrollInterrupted s' = false).
Proof.
  revert s; induction records as [|r rs IH]; intros s Hl Hall.
  - exists s; simpl; rewrite app_nil_r; splits; auto; congruence.
  - destruct (Hall r (or_introl eq_refl)) as [Hr Hf].
    set (s1 := set_scrollLock (LockObj false)
                 (write (Emitted h r)
                    (set_scrollInterrupted false
                       (set_scrollLock (LockObj true) s)))).
    assert (H1 : step (LHandle h r) s = Some s1).
    { simpl; unfold handle; rewrite Hf, Hr; simpl.
      unfold_calls; rewrite Hl; reflexivity. }
    destruct (IH s1) as (s' & He & Ho & Hk & Hp & Hi).
    + reflexivity.
    + intros r' Hin; destruct (Hall r' (or_intror Hin)) as [Hr' Hf'].
      split; [assumption|].
      rewrite <- Hf'; apply filter_same_mode; reflexivity.
    + exists s'; cbn [map]; rewrite exec_cons, H1.
      splits; auto.
      * rewrite Ho; simpl; rewrite <- app_assoc; reflexivity.
      * intros _; destruct rs as [|r2 rs]; [inv He; reflexivity|].
        apply Hi; discriminate.
Qed.

Lemma scroll_burst_all_written_witness :
  exists s',
    exec [LHandle outHdlr Scenario.scroll_line; LHandle outHdlr Scenario.scroll_line]
         Scenario.s_scrolling = Some s' /\
    output s' = [Emitted outHdlr Scenario.scroll_line;
                 Emitted outHdlr Scenario.scroll_line].
Proof.
  destruct (scroll_burst_all_written outHdlr
              [Scenario.scroll_line; Scenario.scroll_line] Scenario.s_scrolling)
    as (s' & He & Ho & _).
  - by_eval.
  - intros record [<-|[<-|[]]]; split; by_eval.
  - exists s'; split; [exact He|].
    rewrite Ho; by_eval.
Defined.

Lemma burst_dropped (h : Handler) (records : list LogRecord) (s : State) :
  scrollLock s = LockObj true ->
  (forall record, In record records -> levelno record = SCROLL) ->
  exec (map (LHandle h) records) s = Some s.
Proof.
  intros Hl; induction records as [|r rs IH]; intros Hall; [reflexivity|].
  assert (H1 : step (LHandle h r) s = Some s).
  { simpl; unfold handle.
    rewrite (Hall r (or_introl eq_refl)); simpl.
    unfold_calls; rewrite Hl.
    destruct (filter h r s); reflexivity. }
  cbn [map]; rewrite exec_cons, H1.
  apply IH; intros r' Hin; apply Hall; right; assumption.
Qed.

(** With the scroll lock held, a burst of scroll lines leaves no trace:
    the state after it is the state before it. *)
Theorem scroll_burst_all_dropped (h : Handler) (records : list LogRecord)
    (s : State) :
  scrollLock s = LockObj true ->
  (forall record, In record records -> levelno record = SCROLL) ->
  exec (map (LHandle h) records) s = Some s.
Proof. exact (burst_dropped h records s). Qed.

Lemma scroll_burst_all_dropped_witness :
  exec [LHandle outHdlr Scenario.scroll_line; LHandle outHdlr Scenario.scroll_line]
       Scenario.s_draining = Some Scenario.s_draining.
Proof.
  apply (scroll_burst_all_dropped outHdlr
           [Scenario.scroll_line; Scenario.scroll_line] Scenario.s_draining).
  - by_eval.
  - intros record [<-|[<-|[]]]; by_eval.
Defined.

(** [lockScrollOutput] and [releaseScrollOutput] around a burst of
    scroll lines: with the lock free before, the three together change
    nothing at all. *)
Theorem lock_burst_release (h : Handler) (records : list LogRecord)
    (s : State) :
  scrollLock s = LockObj false ->
  (forall record, In record records -> levelno record = SCROLL) ->
  exists s1, lockScrollOutput s = Ok tt s1 /\
    exec (map (LHandle h) records) s1 = Some s1 /\
    releaseScrollOutput s1 = Ok tt s.
Proof.
  intros Hl Hall.
  exists (set_scrollLock (LockObj true) s); splits.
  - unfold lockScrollOutput, scrollLock_acquire; rewrite Hl; reflexivity.
  - apply burst_dropped; [reflexivity|assumption].
  - unfold releaseScrollOutput, scrollLock_release; simpl.
    destruct s; simpl in *; subst; reflexivity.
Qed.

Lemma lock_burst_release_witness :
  exists s1, lockScrollOutput Scenario.s_scrolling = Ok tt s1 /\
    exec [LHandle outHdlr Scenario.scroll_line] s1 = Some s1 /\
    releaseScrollOutput s1 = Ok tt Scenario.s_scrolling.
Proof.
  apply (lock_burst_release outHdlr [Scenario.scroll_line] Scenario.s_scrolling).
  - by_eval.
  - intros record [<-|[]]; by_eval.
Defined.

(** ** Sessions that end or begin under the interrupter *)

Lemma scrollEnd_unbinds (s s1 : State) :
  after (scrollEnd s) = Some s1 ->
  scrollLock s1 = Deleted /\ scrollFlag s1 = false /\
  interrupters s1 = interrupters s /\ output s1 = output s /\
  pendingLogRecords s1 = pendingLogRecords s.
Proof.
  unfold after, scrollEnd; intros H.
  destruct (scrollLock (set_scrollFlag false s)) eqn:E; inv H;
    simpl in *; auto.
Qed.

(** An interrupter that comes to take the scroll lock (line 184) or to
    give it up (line 221) when the attribute is not bound to a lock, as
    after [scrollEnd()], ends there without a word: nothing is written,
    the pending records and the monitor stay as they are, and the thread
    never moves again. *)
Theorem interrupter_without_scroll_lock (s : State) (i : nat) (w : Interrupter) :
  nth_error (interrupters s) i = Some w ->
  pc w = AcquireScroll \/ pc w = ReleaseScroll ->
  scrollLock s = Deleted \/ scrollLock s = IsNone ->
  exists s', step (LWorker i) s = Some s' /\
    nth_error (interrupters s') i = Some (at_pc w Dead) /\
    output s' = output s /\
    pendingLogRecords s' = pendingLogRecords s /\
    pendingMonitor s' = pendingMonitor s /\
    forall (ls : list label) (s2 : State),
      exec ls s' = Some s2 ->
      step (LWorker i) s2 = None /\ step (LTimeout i) s2 = None.
Proof.
  intros Hn Hp Hl.
  assert (Hs : step (LWorker i) s =
               Some (set_interrupters (set_nth i (at_pc w Dead) (interrupters s)) s)).
  { simpl; rewrite Hn; unfold wstep, die; unfold_calls.
    destruct Hp as [Hp|Hp], Hl as [Hl|Hl]; rewrite Hp, Hl; reflexivity. }
  eexists; split; [exact Hs|].
  assert (Hd : nth_error
                 (interrupters
                    (set_interrupters
                       (set_nth i (at_pc w Dead) (interrupters s)) s)) i
               = Some (at_pc w Dead))
    by (simpl; eauto using nth_error_set_nth_same).
  splits; try reflexivity; try exact Hd.
  - intros ls s2 He.
    pose proof (exec_keeps_dead _ _ _ _ _ He Hd eq_refl) as Hd2.
    apply (dead_cannot_move s2 i (at_pc w Dead)); [assumption|reflexivity].
Qed.

Lemma interrupter_without_scroll_lock_witness :
  exists s1 s',
    scrollEnd Scenario.s_woken = Ok tt s1 /\
    pendingLogRecords s1 = [set_scrollableHandler Scenario.warning_a outHdlr] /\
    step (LWorker 0) s1 = Some s' /\
    output s' = [] /\
    pendingLogRecords s' = [set_scrollableHandler Scenario.warning_a outHdlr] /\
    step (LWorker 0) s' = None.
Proof.
  exists (set_scrollLock Deleted (set_scrollFlag false Scenario.s_woken)).
  destruct (interrupter_without_scroll_lock
              (set_scrollLock Deleted (set_scrollFlag false Scenario.s_woken))
              0 {| pc := AcquireScroll; hadQuickWait := false |})
    as (s' & Hs & _ & Ho & Hp & _ & Hlater).
  - by_eval.
  - left; reflexivity.
  - left; reflexivity.
  - exists s'.
    split; [by_eval|]; split; [by_eval|]; split; [exact Hs|].
    split; [rewrite Ho; by_eval|]; split; [rewrite Hp; by_eval|].
    destruct (Hlater [] s' eq_refl) as [H _]; exact H.
Defined.

(** [scrollBegin()] binds a new, free lock whoever had the old one.
    Called while an interrupter is inside an episode, it lets the next
    scroll line through, and the interrupter, when it comes to give the
    lock up (line 221), finds it free: it reports "release unlocked
    lock" and ends. *)
Theorem scrollBegin_under_interrupter (s : State) (i : nat) (w : Interrupter)
    (h : Handler) (record : LogRecord) :
  nth_error (interrupters s) i = Some w ->
  pc w = ReleaseScroll ->
  levelno record = SCROLL ->
  filter h record s = true ->
  (exists s1, handle h record (scrollBegin s) = Ok true s1 /\
     output s1 = (output s ++ [Emitted h record])%list) /\
  (exists s', step (LWorker i) (scrollBegin s) = Some s' /\
     nth_error (interrupters s') i = Some (at_pc w Dead) /\
     output s' =
       (output s ++
        [Printed "Error in ScrollInterrupter: release unlocked lock"])%list /\
     scrollLock s' = LockObj false).
Proof.
  intros Hn Hp Hl Hf; split.
  - unfold handle.
    rewrite (filter_same_mode h record s (scrollBegin s)) by reflexivity.
    rewrite Hf, Hl; simpl.
    eexists; split; reflexivity.
  - simpl; rewrite Hn; unfold wstep, die; rewrite Hp; simpl.
    eexists; split; [reflexivity|]; simpl.
    splits; eauto using nth_error_set_nth_same.
Qed.

Lemma scrollBegin_under_interrupter_witness :
  exists s',
    step (LWorker 0) (scrollBegin Scenario.s_episode_ending) = Some s' /\
    Scenario.worker0 s' = Dead /\
    map console_text (output s') =
      [(Stdout, "a" ++ ScrollInterrupter.trail ++ nl);
       (Stdout, "Error in ScrollInterrupter: release unlocked lock" ++ nl)].
Proof.
  destruct (scrollBegin_under_interrupter Scenario.s_episode_ending 0
              {| pc := ReleaseScroll; hadQuickWait := false |}
              outHdlr Scenario.scroll_line)
    as (_ & s' & Hs & Hd & Ho & _); try by_eval.
  exists s'; splits; try assumption.
  - unfold Scenario.worker0.
    destruct (interrupters s') as [|w0 ws]; [discriminate|].
    simpl in Hd; inversion Hd; reflexivity.
  - rewrite Ho; by_eval.
Defined.

(** ** Shutdown *)

(** The shutdown flag is read at the head of the loop and nowhere
    else. An interrupter that stands there with the flag set ends on
    the spot: nothing is written and nothing given up, so the locks it
    has (both, if it came round with [hadQuickWait]) stay held. At any
    other point setting the flag changes nothing in what the thread
    does next; a thread that is suspended stays suspended. *)
Theorem shutdown_read_at_loop_head (s : State) (i : nat) (w : Interrupter) :
  nth_error (interrupters s) i = Some w ->
  (pc w = LoopHead -> shutdown s = true ->
   step (LWorker i) s
   = Some (set_interrupters (set_nth i (at_pc w Dead) (interrupters s)) s)) /\
  (pc w <> LoopHead ->
   step (LWorker i) (set_shutdown true s)
   = option_map (set_shutdown true) (step (LWorker i) s)).
Proof.
  intros Hn; split.
  - intros Hp Hs; simpl; rewrite Hn.
    unfold wstep, die; unfold_calls; rewrite Hp, Hs; reflexivity.
  - intros Hp; simpl; rewrite Hn.
    unfold wstep, die; unfold_calls.
    destruct (pc w) eqn:E; try congruence; simpl;
      repeat (break_match; simpl; try discriminate); reflexivity.
Qed.

Lemma shutdown_read_at_loop_head_witness :
  step (LWorker 0) (set_shutdown true Scenario.s_lost) = None /\
  Scenario.worker0
    (Scenario.run_from (set_shutdown true Scenario.s_init) [LWorker 0]) = Dead.
Proof.
  split.
  - destruct (shutdown_read_at_loop_head Scenario.s_lost 0
                {| pc := IdleWaiting; hadQuickWait := false |} ltac:(by_eval))
      as [_ H].
    rewrite H by discriminate.
    by_eval.
  - destruct (shutdown_read_at_loop_head (set_shutdown true Scenario.s_init) 0
                started ltac:(by_eval)) as [H _].
    unfold Scenario.run_from, exec.
    rewrite (H eq_refl ltac:(by_eval)); by_eval.
Defined.

(** ** Messages that are not strings *)

(** [format] concatenates: a record whose message is not a string
    makes it raise [TypeError], whatever the interrupted flag, which it
    leaves as it was. The interrupter that meets such a record in its
    batch reports the error and ends; nothing of the record is written.
    Outside a session the same record is written with its [str()]. *)
Theorem non_string_message (s : State) (i : nat) (w : Interrupter)
    (record : LogRecord) (rest : list LogRecord) (ty shown : string)
    (h : Handler) :
  msg record = VOther ty shown ->
  (exists m, ScrollInterrupter.format record s = Raise (TypeError m) s) /\
  (nth_error (interrupters s) i = Some w ->
   pc w = Emitting (record :: rest) ->
   scrollableHandler record = Some h ->
   exists s' m, step (LWorker i) s = Some s' /\
     nth_error (interrupters s') i = Some (at_pc w Dead) /\
     output s' = (output s ++ [Printed ("Error in ScrollInterrupter: " ++ m)])%list /\
     scrollInterrupted s' = scrollInterrupted s) /\
  (scrollFlag s = false -> levelno record <> SCROLL ->
   filter h record s = true ->
   handle h record s = Ok true (write (Emitted h record) s) /\
   console_text (Emitted h record) = (h_stream h, shown ++ nl)).
Proof.
  intros Hm; splits.
  - unfold ScrollInterrupter.format; rewrite Hm.
    destruct (scrollInterrupted s); simpl; eexists; reflexivity.
  - intros Hn Hp Hh; simpl; rewrite Hn.
    unfold wstep, die, ScrollInterrupter.handle, ScrollInterrupter.emit,
      ScrollInterrupter.format, try_finally.
    rewrite Hp, Hh, Hm.
    destruct (scrollInterrupted s) eqn:F; simpl;
      do 2 eexists; (split; [reflexivity|]); simpl;
      splits; eauto using nth_error_set_nth_same.
  - intros Hf Hl Hacc; split.
    + unfold handle; rewrite Hacc, Hf.
      replace (levelno record =? SCROLL) with false
        by (symmetry; apply Z.eqb_neq; assumption).
      reflexivity.
    + simpl; rewrite Hm; reflexivity.
Qed.

Lemma non_string_message_witness :
  exists s', step (LWorker 0) Scenario.s_bad_batch = Some s' /\
    Scenario.worker0 s' = Dead /\
    handle outHdlr Scenario.info_5 Scenario.s_init
    = Ok true (write (Emitted outHdlr Scenario.info_5) Scenario.s_init).
Proof.
  destruct (non_string_message Scenario.s_bad_batch 0
              {| pc := Emitting [set_scrollableHandler Scenario.info_5 outHdlr;
                                 set_scrollableHandler Scenario.warning_b outHdlr];
                 hadQuickWait := false |}
              (set_scrollableHandler Scenario.info_5 outHdlr)
              [set_scrollableHandler Scenario.warning_b outHdlr]
              "int" "5" outHdlr ltac:(by_eval))
    as (_ & Hw & _).
  destruct (Hw ltac:(by_eval) ltac:(by_eval) ltac:(by_eval))
    as (s' & m & Hs & Hd & _).
  exists s'; splits; try assumption.
  - unfold Scenario.worker0.
    destruct (interrupters s') as [|w0 ws]; [discriminate|].
    simpl in Hd; inversion Hd; reflexivity.
  - destruct (non_string_message Scenario.s_init 0 started
                Scenario.info_5 [] "int" "5" outHdlr ltac:(by_eval))
      as (_ & _ & Hdirect).
    destruct (Hdirect ltac:(by_eval) ltac:(vm_compute; discriminate) ltac:(by_eval))
      as [H _]; exact H.
Defined.

(** ** A record logged during the timed wait *)

Lemma mem_snoc (i : nat) (l : list nat) : mem i (l ++ [i]) = true.
Proof.
  unfold mem; rewrite existsb_app; simpl.
  rewrite Nat.eqb_refl, orb_true_r; reflexivity.
Qed.

Ltac not_waiting :=
  let H := fresh in
  intros [H|[? H]]; simpl in H; discriminate.

Lemma step_woken_is_notified (l : label) (s s' : State) :
  step l s = Some s' -> woken_is_notified s -> woken_is_notified s'.
Proof.
  unfold woken_is_notified.
  intros H (w & Hw & Hn).
  destruct l; simpl in H.
  - exists w; unfold after in H; unfold_calls.
    break_all; inv H; simpl in *; split; auto.
  - inv H; exists w; simpl; auto.
  - exists w; unfold after in H; unfold_calls.
    break_all; inv H; simpl in *; auto.
  - inv H; exists w; simpl; auto.
  - rewrite Hw in H; destruct i as [|i]; simpl in H;
      [|destruct i; discriminate].
    destruct (wstep 0 w s) as [[w' s1]|] eqn:E; inv H.
    pose proof (wstep_interrupters _ _ _ _ _ E) as Hi.
    exists w'; simpl; rewrite Hi, Hw; simpl; split; [reflexivity|].
    destruct w as [p q]; simpl in *.
    unfold wstep, die, at_pc in E; unfold_calls; simpl in E.
    destruct p; simpl in *; break_all; inv E; simpl in *;
      try not_waiting;
      intros _ Hmem; rewrite mem_snoc in Hmem; discriminate.
  - rewrite Hw in H; destruct i as [|i]; simpl in H;
      [|destruct i; discriminate].
    destruct (wtimeout 0 w s) as [[w' s1]|] eqn:E; inv H.
    pose proof (wtimeout_interrupters _ _ _ _ _ E) as Hi.
    exists w'; simpl; rewrite Hi, Hw; simpl; split; [reflexivity|].
    destruct w as [p q]; simpl in *.
    unfold wtimeout, at_pc in E; unfold_calls; simpl in E.
    destruct p; simpl in *; try discriminate.
    break_all; inv E; simpl in *; not_waiting.
  - inv H; exists w; simpl; auto.
Qed.

Lemma init_boot_woken_is_notified : woken_is_notified (init boot).
Proof. exists started; split; [reflexivity|]; not_waiting. Qed.

(** In a process set up by one [init()], an interrupter that leaves its
    timed wait because it was woken always finds the notified flag
    true: with its next step it clears the flag and goes round the loop
    with [hadQuickWait], the scroll lock and the monitor still its own.
    A record logged before the wait runs out thus always extends the
    episode. *)
Theorem notify_extends_episode (ls : list label) (s s1 : State)
    (w : Interrupter) (d : Z) :
  exec ls (init boot) = Some s ->
  interrupters s = [w] ->
  pc w = GraceWaiting d ->
  step (LWorker 0) s = Some s1 ->
  exists s2, step (LWorker 0) s1 = Some s2 /\
    interrupters s2 = [{| pc := LoopHead; hadQuickWait := true |}] /\
    scrollLock s2 = scrollLock s /\
    mlocked (pendingMonitor s2) = true /\
    notifiedMonitor s2 = false /\
    output s2 = output s.
Proof.
  intros He Hw Hp Hs.
  assert (Hinv : woken_is_notified s).
  { eapply (exec_invariant woken_is_notified);
      eauto using step_woken_is_notified, init_boot_woken_is_notified. }
  destruct Hinv as (w0 & Hw0 & Hn).
  rewrite Hw in Hw0; inv Hw0.
  simpl in Hs; rewrite Hw in Hs; simpl in Hs.
  unfold wstep in Hs; rewrite Hp in Hs; unfold_calls.
  destruct (mem 0 (waiters (pendingMonitor s))) eqn:Hm; [discriminate|].
  destruct (mlocked (pendingMonitor s)) eqn:Hk; [discriminate|].
  assert (Hf : notifiedMonitor s = true) by (apply Hn; eauto).
  inv Hs; eexists; split.
  - simpl; rewrite Hw; simpl; unfold wstep; simpl.
    rewrite Hf; simpl; reflexivity.
  - simpl; rewrite ?Hw; splits; reflexivity.
Qed.

Lemma notify_extends_episode_witness :
  exists s1 s2,
    step (LWorker 0) Episode.s_notified = Some s1 /\
    step (LWorker 0) s1 = Some s2 /\
    interrupters s2 = [{| pc := LoopHead; hadQuickWait := true |}] /\
    scrollLock s2 = LockObj true.
Proof.
  exists (Scenario.run_from Episode.s_notified [LWorker 0]).
  destruct (notify_extends_episode
              (Scenario.first_episode
               ++ [LWorker 0; LWorker 0; LHandle outHdlr Scenario.warning_b])
              Episode.s_notified
              (Scenario.run_from Episode.s_notified [LWorker 0])
              {| pc := GraceWaiting 5; hadQuickWait := false |} 5)
    as (s2 & Hs2 & Hi & Hl & _); try by_eval.
  exists s2.
  split; [by_eval|]; split; [exact Hs2|]; split; [exact Hi|].
  rewrite Hl; by_eval.
Defined.

(** ** The scroll lock and the interrupter *)

Lemma step_episode_has_lock (l : label) (s s' : State) :
  session_label l = false ->
  step l s = Some s' ->
  episode_has_lock s -> episode_has_lock s'.
Proof.
  unfold episode_has_lock, has_scroll_lock.
  intros Hl H (w & Hw & Hm & Hq).
  destruct l; simpl in H; try discriminate.
  - exists w; unfold after in H; unfold_calls.
    break_all; inv H; simpl in *; splits; auto;
      intros Hb; specialize (Hm Hb); congruence.
  - inv H; exists w; simpl; auto.
  - rewrite Hw in H; destruct i as [|i]; simpl in H;
      [|destruct i; discriminate].
    destruct (wstep 0 w s) as [[w' s1]|] eqn:E; inv H.
    pose proof (wstep_interrupters _ _ _ _ _ E) as Hi.
    exists w'; simpl; rewrite Hi, Hw; simpl; split; [reflexivity|].
    destruct w as [p q]; simpl in *.
    unfold wstep, die, at_pc in E; unfold_calls; simpl in E.
    destruct p, q; simpl in *;
      break_all; inv E; simpl in *;
      (split; [intros Hb; try discriminate | intros; try congruence]);
      try reflexivity;
      try (apply Hm; reflexivity);
      try (apply Hq; congruence);
      try (specialize (Hm eq_refl); congruence);
      try (exfalso; assert (true = false) by (apply Hq; discriminate);
           discriminate).
  - rewrite Hw in H; destruct i as [|i]; simpl in H;
      [|destruct i; discriminate].
    destruct (wtimeout 0 w s) as [[w' s1]|] eqn:E; inv H.
    pose proof (wtimeout_interrupters _ _ _ _ _ E) as Hi.
    exists w'; simpl; rewrite Hi, Hw; simpl; split; [reflexivity|].
    destruct w as [p q]; simpl in *.
    unfold wtimeout, at_pc in E; unfold_calls; simpl in E.
    destruct p, q; simpl in *; try discriminate;
      break_all; inv E; simpl in *; try discriminate;
      (split; [intros Hb; apply Hm; reflexivity
              | intros; try congruence]);
      exfalso; assert (true = false) by (apply Hq; discriminate);
      discriminate.
  - inv H; exists w; simpl; auto.
Qed.

(** As long as no session begins or ends, the one interrupter has the
    scroll lock from line 184, where it has waited for it, to line 221:
    the lock is held all the while. So a scroll line handled while the
    interrupter is inside an episode is dropped, whoever else holds the
    lock of the handler: the call returns at once and nothing has
    changed. *)
Theorem scroll_dropped_inside_episode (ls : list label) (s s' : State) :
  episode_has_lock s ->
  forallb (fun l => negb (session_label l)) ls = true ->
  exec ls s = Some s' ->
  episode_has_lock s' /\
  exists w', interrupters s' = [w'] /\
    (has_scroll_lock w' = Some true ->
     scrollLock s' = LockObj true /\
     forall env h record l,
       levelno record = SCROLL -> filter h record s' = true ->
       Call.handle env h record s' l = Call.Returns true s' l).
Proof.
  intros Hk Hls He.
  assert (Hk' : episode_has_lock s').
  { revert s Hk He; induction ls as [|l ls IH]; simpl; intros s Hk He.
    - inv He; assumption.
    - apply andb_prop in Hls; destruct Hls as [Hl Hls].
      destruct (step l s) as [s1|] eqn:E; [|discriminate].
      apply (IH Hls s1); [|assumption].
      eapply step_episode_has_lock; eauto.
      destruct (session_label l); [discriminate|reflexivity]. }
  split; [assumption|].
  destruct Hk' as (w' & Hw' & Hm & _).
  exists w'; split; [assumption|].
  intros Hb; split; [exact (Hm Hb)|].
  intros env h record l Hl Hf.
  unfold Call.handle; rewrite Hf, Hl; simpl.
  unfold scrollLock_acquire; rewrite (Hm Hb); reflexivity.
Qed.

Lemma scroll_dropped_inside_episode_witness :
  exec (LHandle outHdlr Scenario.warning_a :: Scenario.wake_and_drain)
       Episode.s_quiet = Some Scenario.s_draining /\
  Scenario.worker0 Scenario.s_draining
  = Emitting [{| levelno := WARNING; msg := VStr "a";
                 scrollableHandler := Some outHdlr |}] /\
  Call.handle Scenario.caller outHdlr Scenario.scroll_line Scenario.s_draining
    Scenario.taken
  = Call.Returns true Scenario.s_draining Scenario.taken.
Proof.
  assert (He : exec (LHandle outHdlr Scenario.warning_a :: Scenario.wake_and_drain)
                 Episode.s_quiet = Some Scenario.s_draining) by by_eval.
  split; [exact He|]; split; [by_eval|].
  destruct (scroll_dropped_inside_episode
              (LHandle outHdlr Scenario.warning_a :: Scenario.wake_and_drain)
              Episode.s_quiet Scenario.s_draining) as [_ H].
  - exists {| pc := IdleWaiting; hadQuickWait := false |}.
    split; [by_eval|]; split.
    + discriminate.
    + reflexivity.
  - by_eval.
  - exact He.
  - destruct H as (w' & Hw' & Hheld).
    assert (Ew : interrupters Scenario.s_draining
                 = [{| pc := Emitting [set_scrollableHandler
                                         Scenario.warning_a outHdlr];
                       hadQuickWait := false |}]) by by_eval.
    rewrite Ew in Hw'; inversion Hw'; subst w'.
    destruct (Hheld eq_refl) as [_ Hd].
    apply Hd; by_eval.
Defined.

(** ** The order of printing *)

Lemma in_flight_single (s : State) (w : Interrupter) :
  interrupters s = [w] ->
  in_flight s =
  ((match pc w with Emitting records => records | _ => [] end)
   ++ pendingLogRecords s)%list.
Proof. unfold in_flight, batch; intros ->; reflexivity. Qed.

Lemma handle_queue (h : Handler) (record : LogRecord) (s s' : State) :
  after (handle h record s) = Some s' ->
  (pendingLogRecords s' = pendingLogRecords s /\
   (output s' = output s \/ output s' = (output s ++ [Emitted h record])%list))
  \/ (pendingLogRecords s'
      = (pendingLogRecords s ++ [set_scrollableHandler record h])%list /\
      output s' = output s).
Proof.
  unfold after; unfold_calls; intros H.
  break_all; inv H; simpl; auto.
Qed.

Lemma format_keeps (r r' : LogRecord) (s sf : State) :
  ScrollInterrupter.format r s = Ok r' sf ->
  scrollableHandler r' = scrollableHandler r /\ output sf = output s /\
  pendingLogRecords sf = pendingLogRecords s.
Proof.
  unfold ScrollInterrupter.format; intros H.
  break_all; inv H; simpl; auto.
Qed.

Lemma wtimeout_queue (i : nat) (w w1 : Interrupter) (s s1 : State) :
  wtimeout i w s = Some (w1, s1) ->
  pc w1 = AfterGrace /\ (exists d, pc w = GraceWaiting d) /\
  pendingLogRecords s1 = pendingLogRecords s /\ output s1 = output s.
Proof.
  unfold wtimeout; unfold_calls; intros H.
  break_all; inv H; simpl; eauto.
Qed.

Lemma wstep_queue (i : nat) (w w1 : Interrupter) (s s1 : State) :
  wstep i w s = Some (w1, s1) ->
  pc w1 <> Dead ->
  ((match pc w1 with Emitting records => records | _ => [] end)
   ++ pendingLogRecords s1
   = (match pc w with Emitting records => records | _ => [] end)
     ++ pendingLogRecords s /\
   output s1 = output s)%list
  \/ (exists r r' sf h,
        ((match pc w with Emitting records => records | _ => [] end)
         ++ pendingLogRecords s
         = r :: (match pc w1 with Emitting records => records | _ => [] end)
                ++ pendingLogRecords s1)%list /\
        ScrollInterrupter.format r s = Ok r' sf /\
        scrollableHandler r = Some h /\
        output s1 = (output s ++ [Emitted h r'])%list).
Proof.
  intros E Hp.
  destruct w as [p q]; unfold wstep, die, at_pc in E; simpl in E.
  destruct p as [| | | | | |records| | | |].
  7:{ destruct records as [|r rest].
      - destruct (mlocked (pendingMonitor s)); inv E; simpl in *;
          [|congruence].
        left; split; reflexivity.
      - destruct (ScrollInterrupter.handle r s) as [u s2|e s2|] eqn:Eh;
          inv E; simpl in *; [|congruence].
        right.
        unfold ScrollInterrupter.handle, ScrollInterrupter.emit, try_finally in Eh.
        destruct (scrollableHandler r) as [h0|] eqn:Eh0; [|discriminate].
        destruct (ScrollInterrupter.format r s) as [r' sf|e sf|] eqn:Ef;
          try discriminate.
        destruct (format_keeps _ _ _ _ Ef) as (Hh & Ho & Hq).
        rewrite Hh, Eh0 in Eh; inv Eh.
        exists r, r', sf, h0; unfold emit; simpl.
        rewrite Ho, Hq; splits; auto. }
  all: left; unfold_calls; simpl in E;
    repeat (break_match; simpl in E; try discriminate); inv E; simpl in *;
    try congruence;
    try (match goal with H : Emitting _ = Emitting _ |- _ => inv H end);
    split; rewrite ?app_nil_r; reflexivity.
Qed.

(** The records on their way to the console form a queue. With one
    interrupter, which is alive after the step, every step of the
    process does one of three things: it leaves the queue alone (and
    writes nothing, or writes the record a caller handled directly); a
    caller adds its record, with the handler attached, at the end and
    nothing is written; or the interrupter takes the record at the
    front, formats it and writes it on its handler. Records are thus
    printed in the order they were queued, none twice. *)
Theorem queue_discipline (l : label) (s s' : State) (w w' : Interrupter) :
  interrupters s = [w] ->
  step l s = Some s' ->
  interrupters s' = [w'] ->
  pc w' <> Dead ->
  (in_flight s' = in_flight s /\
   (output s' = output s \/
    exists h r, l = LHandle h r /\ output s' = (output s ++ [Emitted h r])%list))
  \/ (exists h r, l = LHandle h r /\
        in_flight s' = (in_flight s ++ [set_scrollableHandler r h])%list /\
        output s' = output s)
  \/ (exists r r' sf h,
        in_flight s = r :: in_flight s' /\
        ScrollInterrupter.format r s = Ok r' sf /\
        scrollableHandler r = Some h /\
        output s' = (output s ++ [Emitted h r'])%list).
Proof.
  intros Hw H Hw' Hp.
  rewrite (in_flight_single s w Hw), (in_flight_single s' w' Hw').
  destruct l; simpl in H.
  - pose proof (handle_interrupters _ _ _ _ H) as Hi.
    rewrite Hw' in Hi; rewrite Hw in Hi; inv Hi.
    destruct (handle_queue _ _ _ _ H) as [[Hq [Ho|Ho]]|[Hq Ho]].
    + left; rewrite Hq; auto.
    + left; rewrite Hq; split; [reflexivity|right; eauto].
    + right; left; exists h, record; rewrite Hq, app_assoc; auto.
  - inv H; unfold scrollBegin in Hw'; simpl in Hw'.
    rewrite Hw in Hw'; inv Hw'; left; split; [reflexivity|left; reflexivity].
  - pose proof (scrollEnd_interrupters _ _ H) as Hi.
    rewrite Hw' in Hi; rewrite Hw in Hi; inv Hi.
    destruct (scrollEnd_unbinds _ _ H) as (_ & _ & _ & Ho & Hq).
    left; rewrite Hq, Ho; auto.
  - inv H; simpl in Hw'; rewrite Hw in Hw'; inv Hw'.
    left; split; [reflexivity|left; reflexivity].
  - rewrite Hw in H; destruct i as [|i]; simpl in H;
      [|destruct i; discriminate].
    destruct (wstep 0 w s) as [[w1 s1]|] eqn:E; inv H.
    pose proof (wstep_interrupters _ _ _ _ _ E) as Hi.
    simpl in Hw'; rewrite Hi, Hw in Hw'; simpl in Hw'; inv Hw'.
    destruct (wstep_queue _ _ _ _ _ E Hp)
      as [[Hq Ho]|(r & r' & sf & h & Hq & Hf & Hh & Ho)]; simpl.
    + left; rewrite Hq; auto.
    + right; right; exists r, r', sf, h; auto.
  - rewrite Hw in H; destruct i as [|i]; simpl in H;
      [|destruct i; discriminate].
    destruct (wtimeout 0 w s) as [[w1 s1]|] eqn:E; inv H.
    pose proof (wtimeout_interrupters _ _ _ _ _ E) as Hi.
    simpl in Hw'; rewrite Hi, Hw in Hw'; simpl in Hw'; inv Hw'.
    destruct (wtimeout_queue _ _ _ _ _ E) as (Hp1 & (d & Hp0) & Hq & Ho).
    simpl; rewrite Hp1, Hp0, Hq, Ho.
    left; split; [reflexivity|left; reflexivity].
  - inv H; simpl in Hw'; rewrite Hw in Hw'; inv Hw'.
    left; split; [reflexivity|left; reflexivity].
Qed.

Lemma queue_discipline_witness :
  exists s',
    step (LWorker 0) Scenario.s_draining = Some s' /\
    in_flight Scenario.s_draining
    = set_scrollableHandler Scenario.warning_a outHdlr :: in_flight s' /\
    map console_text (output s')
    = [(Stdout, "a" ++ ScrollInterrupter.trail ++ nl)].
Proof.
  exists (Scenario.run_from Scenario.s_draining [LWorker 0]).
  destruct (queue_discipline (LWorker 0) Scenario.s_draining
              (Scenario.run_from Scenario.s_draining [LWorker 0])
              {| pc := Emitting [set_scrollableHandler Scenario.warning_a outHdlr];
                 hadQuickWait := false |}
              {| pc := Emitting []; hadQuickWait := false |})
    as [[Hq _]|[(h & r & Hl & _)|(r & r' & sf & h & Hq & _ & _ & Ho)]];
    try by_eval; try (vm_compute; discriminate).
  split; [by_eval|]; split; [|by_eval].
  assert (Hr : r = set_scrollableHandler Scenario.warning_a outHdlr)
    by (vm_compute in Hq; inversion Hq; reflexivity).
  rewrite Hq, Hr; reflexivity.
Defined.

(** ** Where a logged message goes *)

Lemma logger_log_below (level : Z) (message : pyval) (s : State) :
  level < SCROLL -> logger_log level message s = Ok tt s.
Proof.
  intros H; unfold logger_log, logger_level.
  replace (SCROLL <=? level) with false
    by (symmetry; apply Z.leb_gt; assumption).
  reflexivity.
Qed.

Lemma logger_log_out (level : Z) (message : pyval) (s : State) :
  SCROLL <= level < ERROR ->
  logger_log level message s =
  match handle outHdlr (mk_record level message) s with
  | Ok _ s1 => Ok tt s1
  | Raise e s1 => Raise e s1
  | Blocks => Blocks
  end.
Proof.
  intros H; unfold logger_log, logger_level, console_handlers, callHandlers,
    handle_as.
  unfold SCROLL, ERROR in H.
  replace (SCROLL <=? level) with true
    by (symmetry; apply Z.leb_le; unfold SCROLL; lia).
  replace (h_level outHdlr <=? levelno (mk_record level message)) with true
    by (symmetry; apply Z.leb_le; simpl; unfold NOTSET; lia).
  replace (h_level errHdlr <=? levelno (mk_record level message)) with false
    by (symmetry; apply Z.leb_gt; simpl; unfold ERROR; lia).
  destruct (handle outHdlr (mk_record level message) s); reflexivity.
Qed.

Lemma outHdlr_rejects_above_warning (level : Z) (message : pyval) (s : State) :
  WARNING < level ->
  handle outHdlr (mk_record level message) s = Ok false s.
Proof.
  intros H; unfold handle, filter; simpl.
  replace (level >? WARNING) with true
    by (symmetry; apply Z.gtb_lt; assumption).
  reflexivity.
Qed.

Lemma logger_log_error (level : Z) (message : pyval) (s : State) :
  ERROR <= level ->
  logger_log level message s
  = Ok tt (write (Emitted errHdlr (mk_record level message)) s).
Proof.
  intros H; unfold logger_log, logger_level, console_handlers, callHandlers,
    handle_as.
  unfold ERROR in H.
  replace (SCROLL <=? level) with true
    by (symmetry; apply Z.leb_le; unfold SCROLL; lia).
  replace (h_level outHdlr <=? levelno (mk_record level message)) with true
    by (symmetry; apply Z.leb_le; simpl; unfold NOTSET; lia).
  replace (h_level errHdlr <=? levelno (mk_record level message)) with true
    by (symmetry; apply Z.leb_le; simpl; unfold ERROR; lia).
  rewrite outHdlr_rejects_above_warning by (unfold WARNING; lia).
  reflexivity.
Qed.

(** The console by level, with the logger and the two handlers of
    [init()]. Below the scroll level a message is dropped by the logger.
    From the scroll level up to [WARNING] it is the business of the
    handler on standard output alone. Above [WARNING] and below [ERROR]
    it is shown nowhere. From [ERROR] on it is written to standard error
    at once, whatever the state of the session, the locks and the
    interrupter, and never queued. *)
Theorem console_routing (level : Z) (message : pyval) (s : State) :
  (level < SCROLL -> logger_log level message s = Ok tt s) /\
  (SCROLL <= level <= WARNING ->
   logger_log level message s =
   match handle outHdlr (mk_record level message) s with
   | Ok _ s1 => Ok tt s1
   | Raise e s1 => Raise e s1
   | Blocks => Blocks
   end) /\
  (WARNING < level < ERROR -> logger_log level message s = Ok tt s) /\
  (ERROR <= level ->
   logger_log level message s
   = Ok tt (write (Emitted errHdlr (mk_record level message)) s)).
Proof.
  splits.
  - apply logger_log_below.
  - intros H; apply logger_log_out; unfold WARNING, ERROR in *; lia.
  - intros H; rewrite logger_log_out by (unfold WARNING, SCROLL in *; lia).
    rewrite outHdlr_rejects_above_warning by lia; reflexivity.
  - apply logger_log_error.
Qed.

Lemma console_routing_witness :
  logger_log 35 (VStr "x") Scenario.s_scrolling = Ok tt Scenario.s_scrolling /\
  logger_log ERROR (VStr "x") Scenario.s_draining
  = Ok tt (write (Emitted errHdlr Scenario.error_x) Scenario.s_draining).
Proof.
  destruct (console_routing 35 (VStr "x") Scenario.s_scrolling)
    as (_ & _ & H1 & _).
  destruct (console_routing ERROR (VStr "x") Scenario.s_draining)
    as (_ & _ & _ & H2).
  split.
  - apply H1; unfold WARNING, ERROR; lia.
  - apply H2; lia.
Defined.

(** The functions that log. [debug] never shows anything, debug mode
    or not: its level is below the logger's. [error] writes to standard
    error at once, in every state; an exception given with it is added
    to the message as class name and text, anything else given with it
    is ignored, and a message that is not a string together with an
    exception raises [TypeError] with nothing logged. [warn], [info] and
    [scroll] are calls of [handle] on the handler of standard output. *)
Theorem log_functions (message : pyval) (s : State) :
  debug message s = Ok tt s /\
  error message NoException s
  = Ok tt (write (Emitted errHdlr (mk_record ERROR message)) s) /\
  error message NotAnException s = error message NoException s /\
  (forall m cls shown, message = VStr m ->
     error message (AnException cls shown) s
     = Ok tt (write (Emitted errHdlr
                       (mk_record ERROR
                          (VStr (m ++ ": " ++ cls ++ ": " ++ shown)))) s)) /\
  (forall ty shown0 cls shown, message = VOther ty shown0 ->
     exists m, error message (AnException cls shown) s = Raise (TypeError m) s) /\
  warn message s = through_outHdlr WARNING message s /\
  info message s = through_outHdlr INFO message s /\
  scroll message s = through_outHdlr SCROLL message s.
Proof.
  splits.
  - apply logger_log_below; reflexivity.
  - apply logger_log_error; reflexivity.
  - reflexivity.
  - intros m cls shown ->; apply logger_log_error; reflexivity.
  - intros ty shown0 cls shown ->; eexists; reflexivity.
  - apply logger_log_out; unfold SCROLL, WARNING, ERROR; lia.
  - apply logger_log_out; unfold SCROLL, INFO, ERROR; lia.
  - apply logger_log_out; unfold SCROLL, ERROR; lia.
Qed.

(** ** One record, one episode *)

Lemma exec_ticks_from (n : nat) (s : State) :
  exec (ticks n) s = Some (set_now (now s + Z.of_nat n) s).
Proof.
  rewrite <- (set_now_eta s) at 1; apply exec_ticks.
Qed.

(** Running a scenario on a state given field by field: each step is
    evaluated on its own and the state after it written out. *)
Ltac written_out t :=
  eval cbv -[Z.add Z.leb Z.of_nat Z.to_nat String.append
             ScrollInterrupter.lead ScrollInterrupter.trail] in t.

Ltac run_step :=
  rewrite exec_cons;
  match goal with
  | |- context [step ?l ?S] =>
      let r := written_out (step l S) in
      replace (step l S) with r by (vm_compute; reflexivity)
  end; cbv beta iota.

Ltac settle_after :=
  match goal with
  | |- context [after ?X] =>
      let r := written_out (after X) in
      replace (after X) with r by (vm_compute; reflexivity)
  end; cbv beta iota.

(** From the quiet state of a session (the interrupter asleep in
    [wait()], nothing pending, both locks free) one record logged with a
    string for a message is printed by the next six steps of the
    interrupter, on the handler that took it, padded according to the
    interrupted flag; the interrupter then sleeps in its timed wait with
    the scroll lock held. When [SCROLL_INTERRUPT_WAIT] units have passed
    with nothing new, five more steps bring the process back to the
    quiet state: both locks free, nothing pending, the notified flag
    false, the interrupter asleep in [wait()]; the interrupted flag is
    now true and nothing more has been written. *)
Theorem quiet_episode (s : State) (h : Handler) (record : LogRecord) (m : string) :
  quiet s ->
  levelno record <> SCROLL ->
  filter h record s = true ->
  msg record = VStr m ->
  0 <= SCROLL_INTERRUPT_WAIT s ->
  exists s1 s2,
    exec (LHandle h record :: Episode.print_one) s = Some s1 /\
    output s1 =
      (output s ++
       [Emitted h
          (set_msg (set_scrollableHandler record h)
             (VStr ((if scrollInterrupted s then "" else ScrollInterrupter.lead)
                    ++ m ++ ScrollInterrupter.trail)))])%list /\
    interrupters s1 =
      [{| pc := GraceWaiting (now s + SCROLL_INTERRUPT_WAIT s);
          hadQuickWait := false |}] /\
    scrollLock s1 = LockObj true /\
    exec (ticks (Z.to_nat (SCROLL_INTERRUPT_WAIT s)) ++ Episode.let_go) s1
    = Some s2 /\
    quiet s2 /\
    output s2 = output s1 /\
    scrollInterrupted s2 = true /\
    now s2 = now s + SCROLL_INTERRUPT_WAIT s.
Proof.
  intros Hq Hl Hf Hm Hw.
  destruct Hq as (Hi & Hmon & Hflag & Hlock & Hpend & Hnot & Hshut).
  destruct s; simpl in Hi, Hmon, Hflag, Hlock, Hpend, Hnot, Hshut, Hw; subst.
  destruct record as [lv ms sh]; simpl in Hl, Hm; subst.
  apply Z.eqb_neq in Hl.
  destruct scrollInterrupted0;
    (eexists; eexists; split;
     [ unfold Episode.print_one; cbn [repeat];
       rewrite exec_cons; unfold step at 1; unfold handle;
       rewrite Hf; cbn [levelno]; rewrite Hl;
       settle_after; repeat run_step; reflexivity | ]);
    (split; [reflexivity|]; split; [reflexivity|]; split; [reflexivity|]);
    (split;
     [ rewrite exec_app, exec_ticks_from; cbn [now];
       rewrite Z2Nat.id by assumption;
       cbv [set_now scrollFlag scrollInterrupted scrollLock pendingMonitor
              notifiedMonitor pendingLogRecords shutdown DEBUG_MODE
              SCROLL_INTERRUPT_WAIT SHUTDOWN_CODE logger_handlers
              interrupters output];
       unfold Episode.let_go; run_step; rewrite Z.leb_refl; cbv beta iota;
       repeat run_step; reflexivity
     | ]);
    unfold quiet; cbn; splits; reflexivity.
Qed.

Lemma quiet_episode_witness :
  exists s1 s2,
    exec (LHandle outHdlr Scenario.warning_a :: Episode.print_one)
         Episode.s_quiet = Some s1 /\
    map console_text (output s1)
    = [(Stdout, "a" ++ ScrollInterrupter.trail ++ nl)] /\
    exec (ticks 5 ++ Episode.let_go) s1 = Some s2 /\
    quiet s2 /\ now s2 = 5.
Proof.
  destruct (quiet_episode Episode.s_quiet outHdlr Scenario.warning_a "a")
    as (s1 & s2 & He1 & Ho1 & _ & _ & He2 & Hq & _ & _ & Hn).
  - unfold quiet; splits; by_eval.
  - vm_compute; discriminate.
  - by_eval.
  - by_eval.
  - vm_compute; discriminate.
  - exists s1, s2.
    split; [exact He1|]; split; [rewrite Ho1; by_eval|].
    split; [exact He2|]; split; [exact Hq|].
    rewrite Hn; by_eval.
Defined.

(** ** A whole batch *)

Lemma emitting_step_frame (s : State) (i : nat) (w : Interrupter)
    (record : LogRecord) (rest : list LogRecord) (m : string) (h : Handler) :
  nth_error (interrupters s) i = Some w ->
  pc w = Emitting (record :: rest) ->
  msg record = VStr m ->
  scrollableHandler record = Some h ->
  exists s1, step (LWorker i) s = Some s1 /\
    output s1 = (output s ++ printed_batch (scrollInterrupted s) [record])%list /\
    scrollInterrupted s1 = true /\
    scrollLock s1 = scrollLock s /\
    pendingLogRecords s1 = pendingLogRecords s /\
    pendingMonitor s1 = pendingMonitor s /\
    nth_error (interrupters s1) i = Some (at_pc w (Emitting rest)).
Proof.
  intros Hn Hp Hm Hh; simpl; rewrite Hn, Hm, Hh.
  unfold wstep; rewrite Hp.
  unfold ScrollInterrupter.handle; rewrite Hh.
  unfold ScrollInterrupter.emit; rewrite (format_string _ _ _ Hm).
  destruct (scrollInterrupted s) eqn:F; simpl; rewrite Hh; simpl;
    eexists; (split; [reflexivity|]); simpl;
    rewrite ?F; splits; eauto using nth_error_set_nth_same.
Qed.

(** An interrupter that has copied a batch of records, all with a
    string for a message and their handler attached, prints the whole
    batch with as many steps as it has records, in order, each record
    on its own handler; only the first can get the leading newlines.
    The locks, the monitor and the pending records are not touched
    meanwhile. *)
Theorem batch_printed (records : list LogRecord) (s : State) (i : nat)
    (w : Interrupter) :
  nth_error (interrupters s) i = Some w ->
  pc w = Emitting records ->
  (forall r, In r records ->
     exists m h, msg r = VStr m /\ scrollableHandler r = Some h) ->
  exists s', exec (repeat (LWorker i) (List.length records)) s = Some s' /\
    output s' = (output s ++ printed_batch (scrollInterrupted s) records)%list /\
    nth_error (interrupters s') i = Some (at_pc w (Emitting [])) /\
    (records <> [] -> scrollInterrupted s' = true) /\
    scrollLock s' = scrollLock s /\
    pendingLogRecords s' = pendingLogRecords s /\
    pendingMonitor s' = pendingMonitor s.
Proof.
  revert s w; induction records as [|r rest IH]; intros s w Hn Hp Hall.
  - exists s; simpl; rewrite app_nil_r; splits; auto; try congruence.
    rewrite Hn; f_equal; destruct w; simpl in *; subst; reflexivity.
  - destruct (Hall r (or_introl eq_refl)) as (m & h & Hm & Hh).
    destruct (emitting_step_frame s i w r rest m h Hn Hp Hm Hh)
      as (s1 & Hs & Ho & Hi & Hl & Hq & Hmon & Hn1).
    destruct (IH s1 (at_pc w (Emitting rest)) Hn1 eq_refl) as
      (s' & He & Ho' & Hn' & _ & Hl' & Hq' & Hmon').
    { intros r' Hin; apply Hall; right; assumption. }
    exists s'; cbn [List.length repeat]; rewrite exec_cons, Hs.
    splits; auto; try congruence.
    + rewrite Ho', Ho, Hi; simpl; rewrite Hm, Hh.
      rewrite <- app_assoc; reflexivity.
    + intros _; destruct rest as [|r2 rest].
      * simpl in He; inv He; assumption.
      * destruct (IH s1 (at_pc w (Emitting (r2 :: rest))) Hn1 eq_refl)
          as (s'' & He'' & _ & _ & Hi'' & _).
        { intros r' Hin; apply Hall; right; assumption. }
        rewrite He in He''; inv He''; apply Hi''; discriminate.
Qed.

Lemma batch_printed_witness :
  exists s',
    exec [LWorker 0; LWorker 0] Episode.s_two_copied = Some s' /\
    map console_text (output s')
    = [(Stdout, "a" ++ ScrollInterrupter.trail ++ nl);
       (Stdout, "b" ++ ScrollInterrupter.trail ++ nl)].
Proof.
  destruct (batch_printed
              [set_scrollableHandler Scenario.warning_a outHdlr;
               set_scrollableHandler Scenario.warning_b outHdlr]
              Episode.s_two_copied 0
              {| pc := Emitting [set_scrollableHandler Scenario.warning_a outHdlr;
                                 set_scrollableHandler Scenario.warning_b outHdlr];
                 hadQuickWait := false |})
    as (s' & He & Ho & _).
  - by_eval.
  - reflexivity.
  - intros r [<-|[<-|[]]]; do 2 eexists; split; reflexivity.
  - exists s'; split; [exact He|].
    rewrite Ho; by_eval.
Defined.

(** ** The text [format] makes *)

(** [format] on a record whose message is a string: the message gets
    two newlines after it, and four before it when the interrupted flag
    is false; level and handler of the record stay; the interrupted
    flag is true afterwards and nothing else has changed. *)
Theorem format_padding_text (record : LogRecord) (m : string) (s : State) :
  msg record = VStr m ->
  exists r' s',
    ScrollInterrupter.format record s = Ok r' s' /\
    msg r' =
      VStr ((if scrollInterrupted s then ""
             else String "010" (String "010" (String "010" (String "010" ""))))
            ++ m ++ String "010" (String "010" "")) /\
    levelno r' = levelno record /\
    scrollableHandler r' = scrollableHandler record /\
    scrollInterrupted s' = true /\
    output s' = output s /\
    scrollFlag s' = scrollFlag s /\
    scrollLock s' = scrollLock s /\
    pendingMonitor s' = pendingMonitor s /\
    pendingLogRecords s' = pendingLogRecords s /\
    notifiedMonitor s' = notifiedMonitor s /\
    interrupters s' = interrupters s.
Proof.
  intros Hm; rewrite (format_string _ _ _ Hm).
  destruct (scrollInterrupted s) eqn:E;
    eexists; eexists; split; try reflexivity; simpl; splits; auto.
Qed.

Lemma format_padding_text_witness :
  exists r' s',
    ScrollInterrupter.format Scenario.warning_a Scenario.s_after_scroll
    = Ok r' s' /\
    msg r' = VStr (String "010" (String "010" (String "010" (String "010"
               (String "a" (String "010" (String "010" ""))))))) /\
    scrollInterrupted s' = true.
Proof.
  destruct (format_padding_text Scenario.warning_a "a" Scenario.s_after_scroll
              eq_refl)
    as (r' & s' & Hf & Hm & _ & _ & Hi & _).
  exists r', s'; split; [assumption|]; split; [|assumption].
  rewrite Hm.
  replace (scrollInterrupted Scenario.s_after_scroll) with false by by_eval.
  reflexivity.
Defined.

(** ** The interrupter and the lock of a handler *)

(** An interrupter that comes to a record whose handler another thread
    has locked waits at [self.acquire(record)]: it has done nothing to
    the record, and it waits with the scroll lock and the mutex of the
    pending monitor as they are, so in an episode with both held. *)
Theorem interrupter_waits_for_handler (env : Call.Env) (s : State) (i : nat)
    (w : Interrupter) (record : LogRecord) (rest : list LogRecord)
    (h : Handler) (owner again : nat) :
  pc w = Emitting (record :: rest) ->
  scrollableHandler record = Some h ->
  owner <> Call.me env ->
  Call.interrupter_handle env record s (Call.Held owner again)
  = Call.Suspended (Call.HandlerLock h) s (Call.Held owner again) /\
  Call.wstep env i w s (Call.Held owner again) = None.
Proof.
  intros Hp Hh Hne.
  unfold Call.wstep, Call.interrupter_handle; rewrite Hp, Hh; simpl.
  apply Nat.eqb_neq in Hne; rewrite Hne; split; reflexivity.
Qed.

Lemma interrupter_waits_for_handler_witness :
  Call.wstep Scenario.interrupter_on_broken_pipe 0
    {| pc := Emitting [{| levelno := WARNING; msg := VStr "a";
                          scrollableHandler := Some outHdlr |}];
       hadQuickWait := false |}
    Scenario.s_draining Scenario.taken = None /\
  scrollLock Scenario.s_draining = LockObj true /\
  mlocked (pendingMonitor Scenario.s_draining) = true.
Proof.
  split; [|split; by_eval].
  apply (interrupter_waits_for_handler Scenario.interrupter_on_broken_pipe
           Scenario.s_draining 0
           {| pc := Emitting [{| levelno := WARNING; msg := VStr "a";
                                 scrollableHandler := Some outHdlr |}];
              hadQuickWait := false |}
           {| levelno := WARNING; msg := VStr "a";
              scrollableHandler := Some outHdlr |}
           [] outHdlr 2%nat 0%nat eq_refl eq_refl).
  discriminate.
Defined.
